(** * NewsRobot: the scraper's text, date, extraction and report logic

    A shallow embedding of [scrapper/scrapper.py] (class [MainScrapper]).
    Python [str] values are lists of characters; a character is a code
    point below 256, with the character classes CPython's [re] and [str]
    methods use on that range.  The browser, the HTTP client and the file
    system are collaborators: their answers are data of the model. *)

From Stdlib Require Import ZArith Ascii DecimalString DecimalNat.
From stdpp Require Import base option list gmap strings.

Open Scope Z_scope.

(** ** Python strings *)

Abbreviation text := (list ascii).

Definition lit (s : string) : text := String.list_ascii_of_string s.

Definition code (c : ascii) : N := N_of_ascii c.

Definition between (lo hi : N) (c : ascii) : bool :=
  ((lo <=? code c) && (code c <=? hi))%N.

(** [str.isspace] / [\s]: TAB..CR, FS..US, SPACE, NEL, NBSP. *)
Definition is_space (c : ascii) : bool :=
  between 9 13 c || between 28 32 c || between 133 133 c || between 160 160 c.

(** [\d]: the decimal digits. *)
Definition is_digit (c : ascii) : bool := between 48 57 c.

(** [\w]: alphanumeric characters and the underscore. *)
Definition is_word (c : ascii) : bool :=
  between 48 57 c || between 65 90 c || between 97 122 c || between 95 95 c
  || between 170 170 c || between 178 179 c || between 181 181 c
  || between 185 186 c || between 188 190 c || between 192 214 c
  || between 216 246 c || between 248 255 c.

Fixpoint str_lstrip (s : text) : text :=
  match s with
  | c :: s' => if is_space c then str_lstrip s' else s
  | [] => []
  end.

Definition str_rstrip (s : text) : text := rev (str_lstrip (rev s)).

(** [s.strip()] *)
Definition str_strip (s : text) : text := str_rstrip (str_lstrip s).

Fixpoint starts_with (sub s : text) : bool :=
  match sub, s with
  | [], _ => true
  | a :: sub', b :: s' => bool_decide (a = b) && starts_with sub' s'
  | _ :: _, [] => false
  end.

(** [s.find(sub)]: the lowest index where [sub] occurs, [None] for -1. *)
Fixpoint str_find (sub s : text) : option nat :=
  if starts_with sub s then Some 0%nat
  else match s with
       | [] => None
       | _ :: s' => S <$> str_find sub s'
       end.

(** The scan shared by [split] and [count]: find the next occurrence,
    jump over it, go on.  [fuel] bounds the number of occurrences. *)
Fixpoint str_split_loop (fuel : nat) (sep s : text) : list text :=
  match fuel with
  | O => [s]
  | S n =>
      match str_find sep s with
      | None => [s]
      | Some j => take j s :: str_split_loop n sep (drop (j + length sep) s)
      end
  end.

(** [s.split(sep)] for a non-empty separator. *)
Definition str_split (sep s : text) : list text := str_split_loop (length s) sep s.

Fixpoint str_count_loop (fuel : nat) (sub s : text) : nat :=
  match fuel with
  | O => 0
  | S n =>
      match str_find sub s with
      | None => 0
      | Some j => S (str_count_loop n sub (drop (j + length sub) s))
      end
  end.

(** [s.count(sub)]: non-overlapping occurrences; the empty string is
    counted between all characters and at both ends. *)
Definition str_count (sub s : text) : nat :=
  match sub with
  | [] => S (length s)
  | _ => str_count_loop (length s) sub s
  end.

(** [l[i]] with Python's negative indices; [None] is [IndexError]. *)
Definition py_index {A} (l : list A) (i : Z) : option A :=
  let n := Z.of_nat (length l) in
  let j := if i <? 0 then i + n else i in
  if (0 <=? j) && (j <? n) then l !! Z.to_nat j else None.

(** [str(n)] for a natural number. *)
Definition decimal (n : nat) : text :=
  lit (NilZero.string_of_uint (Nat.to_uint n)).

(** ** Regular expressions (the fragment of [re] the patterns use) *)

Inductive cclass := CDigit | CSpace | CWord.

Definition in_class (k : cclass) (c : ascii) : bool :=
  match k with
  | CDigit => is_digit c
  | CSpace => is_space c
  | CWord => is_word c
  end.

Inductive regex :=
| REps
| RChar (c : ascii)
| RClass (k : cclass)
| RSeq (r1 r2 : regex)
| RRep (r : regex) (lo : nat) (hi : option nat)
| RGroup (r : regex)
| RWordB.

Fixpoint rlit (s : text) : regex :=
  match s with
  | [] => REps
  | c :: s' => RSeq (RChar c) (rlit s')
  end.

Definition rseq (rs : list regex) : regex := foldr RSeq REps rs.

(** The span of capturing group 1, when it has matched. *)
Definition cap := option (nat * nat).

Definition word_at (s : text) (i : nat) : bool :=
  match s !! i with
  | Some c => is_word c
  | None => false
  end.

(** [\b]: exactly one of the characters before and at [i] is a word
    character; beyond either end of the text counts as a non-word. *)
Definition at_boundary (s : text) (i : nat) : bool :=
  xorb (match i with O => false | S p => word_at s p end) (word_at s i).

(** Greedy repetition: one more iteration is tried before stopping.
    An iteration must consume input. *)
Fixpoint rep_run (step : nat -> cap -> list (nat * cap))
    (fuel lo : nat) (hi : option nat) (i : nat) (g : cap) : list (nat * cap) :=
  let stop := match lo with O => [(i, g)] | S _ => [] end in
  match fuel with
  | O => stop
  | S n =>
      match hi with
      | Some O => []
      | _ =>
          flat_map (fun jg : nat * cap =>
                      if bool_decide (i < fst jg)%nat
                      then rep_run step n (pred lo) (pred <$> hi) (fst jg) (snd jg)
                      else [])
                   (step i g)
      end ++ stop
  end.

(** All the ways [r] matches [s] from position [i], as end positions with
    the group capture, in the order the backtracking engine tries them. *)
Fixpoint run (s : text) (r : regex) (i : nat) (g : cap) : list (nat * cap) :=
  match r with
  | REps => [(i, g)]
  | RChar c =>
      match s !! i with
      | Some c' => if bool_decide (c = c') then [(S i, g)] else []
      | None => []
      end
  | RClass k =>
      match s !! i with
      | Some c' => if in_class k c' then [(S i, g)] else []
      | None => []
      end
  | RSeq r1 r2 =>
      flat_map (fun jg : nat * cap => run s r2 (fst jg) (snd jg)) (run s r1 i g)
  | RRep r lo hi => rep_run (run s r) (S (length s)) lo hi i g
  | RGroup r =>
      map (fun jg : nat * cap => (fst jg, Some (i, fst jg))) (run s r i g)
  | RWordB => if at_boundary s i then [(i, g)] else []
  end.

(** A match object: where the match starts and ends, and group 1. *)
Record rmatch := { m_start : nat; m_end : nat; m_group1 : cap }.

Definition match_at (r : regex) (s : text) (i : nat) : option rmatch :=
  match run s r i None with
  | (j, g) :: _ => Some {| m_start := i; m_end := j; m_group1 := g |}
  | [] => None
  end.

Fixpoint search_from (r : regex) (s : text) (i n : nat) : option rmatch :=
  match match_at r s i with
  | Some m => Some m
  | None =>
      match n with
      | O => None
      | S n' => search_from r s (S i) n'
      end
  end.

(** [re.search(r, s)]: the match at the leftmost start position. *)
Definition search (r : regex) (s : text) : option rmatch :=
  search_from r s 0 (length s).

(** [m.group(1)] *)
Definition group1 (s : text) (m : rmatch) : text :=
  match m_group1 m with
  | Some (a, b) => take (b - a) (drop a s)
  | None => []
  end.

(** ** Dates ([datetime] at midnight) *)

Record datetime := { year : Z; month : Z; day : Z }.

Definition month_abbr : list text :=
  map lit ["Jan"; "Feb"; "Mar"; "Apr"; "May"; "Jun";
           "Jul"; "Aug"; "Sep"; "Oct"; "Nov"; "Dec"].

Definition lower (c : ascii) : ascii :=
  if between 65 90 c then ascii_of_N (code c + 32) else c.

Definition is_leap (y : Z) : bool :=
  ((y mod 4 =? 0) && negb (y mod 100 =? 0)) || (y mod 400 =? 0).

Definition days_in_month (y m : Z) : Z :=
  if m =? 2 then (if is_leap y then 29 else 28)
  else if (m =? 4) || (m =? 6) || (m =? 9) || (m =? 11) then 30
  else 31.

(** The [datetime(y, m, d)] constructor; [None] is its [ValueError]. *)
Definition make_date (y m d : Z) : option datetime :=
  if (1 <=? y) && (y <=? 9999) && (1 <=? m) && (m <=? 12)
     && (1 <=? d) && (d <=? days_in_month y m)
  then Some {| year := y; month := m; day := d |}
  else None.

Definition digit_val (c : ascii) : Z := Z.of_N (code c) - 48.

(** [%d]: the alternatives [3[0-1]], [[1-2]\d], [0[1-9]], [[1-9]] and
    [ [1-9]], tried in this order. *)
Definition parse_day (t : text) : option (Z * text) :=
  match t with
  | a :: b :: rest =>
      if bool_decide (a = "3"%char) && between 48 49 b
      then Some (30 + digit_val b, rest)
      else if between 49 50 a && is_digit b
      then Some (10 * digit_val a + digit_val b, rest)
      else if bool_decide (a = "0"%char) && between 49 57 b
      then Some (digit_val b, rest)
      else if between 49 57 a then Some (digit_val a, b :: rest)
      else if bool_decide (a = " "%char) && between 49 57 b
      then Some (digit_val b, rest)
      else None
  | [a] => if between 49 57 a then Some (digit_val a, []) else None
  | [] => None
  end.

(** A blank in the format stands for [\s+]. *)
Definition parse_blank (t : text) : option text :=
  match t with
  | c :: rest => if is_space c then Some (str_lstrip rest) else None
  | [] => None
  end.

Fixpoint index_of (name : text) (names : list text) (i : Z) : option Z :=
  match names with
  | [] => None
  | n :: names' => if bool_decide (n = name) then Some i else index_of name names' (i + 1)
  end.

(** [%b]: an abbreviated month name of the C locale, in any case. *)
Definition parse_month (t : text) : option (Z * text) :=
  match t with
  | a :: b :: c :: rest =>
      m ← index_of (map lower [a; b; c]) (map (map lower) month_abbr) 1;
      Some (m, rest)
  | _ => None
  end.

(** [%Y]: four digits. *)
Definition parse_year (t : text) : option (Z * text) :=
  match t with
  | a :: b :: c :: d :: rest =>
      if is_digit a && is_digit b && is_digit c && is_digit d
      then Some (1000 * digit_val a + 100 * digit_val b
                 + 10 * digit_val c + digit_val d, rest)
      else None
  | _ => None
  end.

(** [datetime.strptime(t, '%d %b %Y')]; [None] is [ValueError]: the text
    does not have the format, text is left over, or the date does not exist. *)
Definition strptime (t : text) : option datetime :=
  '(d, t1) ← parse_day t;
  t2 ← parse_blank t1;
  '(m, t3) ← parse_month t2;
  t4 ← parse_blank t3;
  '(y, t5) ← parse_year t4;
  match t5 with
  | [] => make_date y m d
  | _ :: _ => None
  end.

Definition pad2 (n : Z) : text :=
  if n <? 10 then "0"%char :: decimal (Z.to_nat n) else decimal (Z.to_nat n).

(** [d.strftime('%d %b %Y')] *)
Definition strftime (d : datetime) : text :=
  pad2 (day d) ++ lit " " ++ default [] (month_abbr !! Z.to_nat (month d - 1))
  ++ lit " " ++ decimal (Z.to_nat (year d)).

(** ** locators.py *)

Inductive locator :=
| ENABLE_SEARCH_BUTTON_BIG
| SEARCH_INPUT_BIG
| ENABLE_SEARCH_BUTTON_SMALL
| SEARCH_INPUT_SMALL
| SEARCH_BUTTON_ID
| SEARCH_SORT_OPTIONS
| MAIN_CONTENT
| LOAD_MODE_BUTTON
| NEWS_TITLE_CLASS
| NEWS_DESCRIPTION_CLASS
| NEWS_FOOTER_CLASS
| NEWS_IMAGE_CLASS.

Inductive by_target :=
| ById (id : string)
| ByXPath (l : locator).

(** ** The collaborators: log, files, HTTP, workbook, browser sessions *)

Inductive exn :=
| NoSuchElement (l : locator)
| TimeoutException
| TypeError
| IndexError
| RequestException
| OtherError (name : string)
| PlainException (cause : exn).

Inductive level := INFO | WARNING | ERROR.

Inductive message :=
| ImageDirectoryCreated
| ImageSaved (name : text)
| ImageFetchFailed (status_code : Z) (content : text)
| ElementError (error : exn)
| DateParseError
| ScrapeError (error : exn).

Inductive value := VStr (s : text) | VInt (n : Z) | VBool (b : bool).

(** A Python [dict] with string keys, in insertion order. *)
Abbreviation dict := (list (text * value)).

Record response := { status_code : Z; content : text }.

(** The rendered content of one article: what [find_element] under the
    handle gives for each locator ([None]: no such element), and the
    [src] attribute of the image element ([None]: no such attribute). *)
Record WebElement := {
  el_title : option text;
  el_description : option text;
  el_footer : option text;
  el_image : option (option text) }.

Record World := {
  log : list (level * message);
  dirs : gset text;
  files : gmap text text;
  workbook : option (gmap (nat * nat) value);
  http : text -> option response;
  sessions : nat }.

Inductive result (A : Type) :=
| Ok (a : A)
| Raise (e : exn)
| Diverge.
Arguments Ok {A} a.
Arguments Raise {A} e.
Arguments Diverge {A}.

Definition M (A : Type) : Type := World -> result A * World.

Definition ret {A} (a : A) : M A := fun w => (Ok a, w).

Definition raise {A} (e : exn) : M A := fun w => (Raise e, w).

Definition bind {A B} (m : M A) (k : A -> M B) : M B :=
  fun w =>
    match m w with
    | (Ok a, w') => k a w'
    | (Raise e, w') => (Raise e, w')
    | (Diverge, w') => (Diverge, w')
    end.

Notation "'do' x <- m ; k" := (bind m (fun x => k))
  (at level 10, x pattern, m at level 100, k at level 200).
Notation "m ;; k" := (bind m (fun _ => k))
  (at level 100, k at level 200, right associativity).

(** [try: m  except Exception as e: handler e] *)
Definition try_except {A} (m : M A) (handler : exn -> M A) : M A :=
  fun w =>
    match m w with
    | (Raise e, w') => handler e w'
    | r => r
    end.

(** [try: m  finally: cleanup]; an exception of the cleanup replaces the
    outcome of [m]. *)
Definition try_finally {A} (m : M A) (cleanup : M unit) : M A :=
  fun w =>
    match m w with
    | (Diverge, w') => (Diverge, w')
    | (r, w') =>
        match cleanup w' with
        | (Ok _, w'') => (r, w'')
        | (Raise e, w'') => (Raise e, w'')
        | (Diverge, w'') => (Diverge, w'')
        end
    end.

(** [find_element(locator, parent=element)] on rendered content. *)
Definition found {A} (l : locator) (o : option A) : M A :=
  match o with
  | Some a => ret a
  | None => raise (NoSuchElement l)
  end.

Definition logging (l : level) (m : message) : M unit :=
  fun w => (Ok tt, {| log := log w ++ [(l, m)]; dirs := dirs w; files := files w;
                      workbook := workbook w; http := http w; sessions := sessions w |}).

Definition path_exists (d : text) : M bool :=
  fun w => (Ok (bool_decide (d ∈ dirs w)), w).

Definition makedirs (d : text) : M unit :=
  fun w => (Ok tt, {| log := log w; dirs := {[d]} ∪ dirs w; files := files w;
                      workbook := workbook w; http := http w; sessions := sessions w |}).

Definition write_file (path data : text) : M unit :=
  fun w => (Ok tt, {| log := log w; dirs := dirs w; files := <[path := data]> (files w);
                      workbook := workbook w; http := http w; sessions := sessions w |}).

(** [requests.get(url, timeout=1.5)]: a response, or an exception of the
    request itself (no URL, connection error, timeout). *)
Definition requests_get (url : option text) : M response :=
  fun w =>
    match url with
    | Some u =>
        match http w u with
        | Some resp => (Ok resp, w)
        | None => (Raise RequestException, w)
        end
    | None => (Raise RequestException, w)
    end.

Definition close_all_browsers : M unit :=
  fun w => (Ok tt, {| log := log w; dirs := dirs w; files := files w;
                      workbook := workbook w; http := http w; sessions := 0%nat |}).

(** [os.path.exists('output/output.xlsx')] *)
Definition workbook_exists : M bool :=
  fun w => (Ok (bool_decide (is_Some (workbook w))), w).

Definition create_workbook : M (gmap (nat * nat) value) := ret ∅.

Definition open_workbook : M (gmap (nat * nat) value) :=
  fun w => (Ok (default ∅ (workbook w)), w).

Definition save_workbook (wb : gmap (nat * nat) value) : M unit :=
  fun w => (Ok tt, {| log := log w; dirs := dirs w; files := files w;
                      workbook := Some wb; http := http w; sessions := sessions w |}).

(** The browser automation library, as the operations the scraper calls. *)
Class Browser := {
  set_window_size : Z * Z -> M unit;
  get_window_size : M (Z * Z);
  click_element : locator -> M unit;
  input_text : locator -> option text -> M unit;
  click_button : locator -> M unit;
  select_from_list_by_value : locator -> string -> M unit;
  wait_until_located : by_target -> Z -> M unit;
  does_page_contain_element : locator -> M bool;
  execute_javascript : string -> M unit;
  find_elements : locator -> M (list WebElement) }.

(** ** scrapper.py: class MainScrapper *)

Record MainScrapper := {
  month_limit : Z;
  search_phrase : option text;
  window_size : Z * Z;
  img_directory : text }.

(** [__init__]: [dt.now().month - max(number_of_months - 1, 0)] *)
Definition init_month_limit (now_month number_of_months : Z) : Z :=
  now_month - Z.max (number_of_months - 1) 0.

Definition rplus (r : regex) : regex := RRep r 1 None.
Definition rstar (r : regex) : regex := RRep r 0 None.
Definition ropt (r : regex) : regex := RRep r 0 (Some 1%nat).
Definition rtimes (r : regex) (lo hi : nat) : regex := RRep r lo (Some hi).

(** [(?:,\d{3})*] *)
Definition thousands_groups : regex :=
  rstar (RSeq (RChar ",") (rtimes (RClass CDigit) 3 3)).

(** [\$\d+(?:,\d{3})*(?:\.\d{1,2})?] *)
Definition dollar_sign_pattern : regex :=
  rseq [RChar "$"; rplus (RClass CDigit); thousands_groups;
        ropt (RSeq (RChar ".") (rtimes (RClass CDigit) 1 2))].

(** [\b\d+(?:,\d{3})*\s+dollars\b] and [\b\d+(?:,\d{3})*\s+USD\b] *)
Definition amount_pattern (unit_name : text) : regex :=
  rseq [RWordB; rplus (RClass CDigit); thousands_groups;
        rplus (RClass CSpace); rlit unit_name; RWordB].

Definition money_patterns : list regex :=
  [dollar_sign_pattern; amount_pattern (lit "dollars"); amount_pattern (lit "USD")].

Fixpoint any_pattern (patterns : list regex) (t : text) : bool :=
  match patterns with
  | [] => false
  | pattern :: rest =>
      match search pattern t with
      | Some _ => true
      | None => any_pattern rest t
      end
  end.

Definition contains_money (t : text) : bool := any_pattern money_patterns t.

(** [(\d{1,2} \w{3} \d{4})] *)
Definition date_group : regex :=
  RGroup (rseq [rtimes (RClass CDigit) 1 2; RChar " "; rtimes (RClass CWord) 3 3;
                RChar " "; rtimes (RClass CDigit) 4 4]).

Definition date_patterns : list regex :=
  [RSeq (rlit (lit "Published On ")) date_group;
   RSeq (rlit (lit "Last update ")) date_group].

(** The [for pattern in date_patterns] loop.  The last statement of its
    body is [return None], so every iteration returns. *)
Fixpoint convert_loop (patterns : list regex) (date_string : text)
  : M (option datetime) :=
  match patterns with
  | [] => ret None
  | pattern :: rest =>
      do returned <-
        match search pattern date_string with
        | Some m =>
            match strptime (group1 date_string m) with
            | Some d => ret (Some (Some d))
            | None => (logging WARNING DateParseError ;; ret (Some None))
            end
        | None => ret (Some None)
        end;
      match returned with
      | Some r => ret r
      | None => convert_loop rest date_string
      end
  end.

Definition convert_string_to_datetime (date_string : text) : M (option datetime) :=
  match str_strip date_string with
  | _ :: _ => convert_loop date_patterns date_string
  | [] => ret None
  end.

Definition get_news_image (self : MainScrapper) (img_src : option text) (idx : nat)
  : M text :=
  do present <- path_exists (img_directory self);
  (if present then ret tt
   else (makedirs (img_directory self) ;; logging INFO ImageDirectoryCreated)) ;;
  do resp <- requests_get img_src;
  if status_code resp =? 200 then
    let img_file_name := lit "img_" ++ decimal idx ++ lit ".png" in
    (write_file (lit "output/imgs/" ++ img_file_name) (content resp) ;;
     logging INFO (ImageSaved img_file_name) ;;
     ret img_file_name)
  else
    (logging WARNING (ImageFetchFailed (status_code resp) (content resp)) ;;
     ret (lit "Unavailable")).

(** [s.count(sub)] where [sub] may be [None]. *)
Definition count_in (s : text) (sub : option text) : M nat :=
  match sub with
  | Some p => ret (str_count p s)
  | None => raise TypeError
  end.

(** [l[i]] *)
Definition index {A} (l : list A) (i : Z) : M A :=
  match py_index l i with
  | Some a => ret a
  | None => raise IndexError
  end.

Inductive ctl := Next | Break.

(** The body of the [try] in the extraction loop. *)
Definition process_element (self : MainScrapper) (i : nat) (element : WebElement)
    (_news_payload : list dict) : M (list dict * ctl) :=
  do title <- found NEWS_TITLE_CLASS (el_title element);
  do rendered <- found NEWS_DESCRIPTION_CLASS (el_description element);
  let description := str_split (lit "...") rendered in
  do description <- index description (Z.of_nat (length description) - 2);
  let description := str_strip description in
  do footer <- found NEWS_FOOTER_CLASS (el_footer element);
  do date <- convert_string_to_datetime footer;
  match date with
  | Some date =>
      if month_limit self <=? month date then
        do in_title <- count_in title (search_phrase self);
        do in_description <- count_in description (search_phrase self);
        let money := contains_money title || contains_money description in
        do img_src <- found NEWS_IMAGE_CLASS (el_image element);
        do img_file_name <- get_news_image self img_src i;
        ret (_news_payload ++
               [[(lit "title", VStr title);
                 (lit "date", VStr (strftime date));
                 (lit "description", VStr description);
                 (lit "search_term_occurrence", VInt (Z.of_nat (in_title + in_description)));
                 (lit "contains_money", VBool money);
                 (lit "img_file_name", VStr img_file_name)]],
             Next)
      else ret (_news_payload, Break)
  | None => ret (_news_payload, Next)
  end.

Fixpoint process_loop (self : MainScrapper) (i : nat) (news_list : list WebElement)
    (_news_payload : list dict) : M (list dict) :=
  match news_list with
  | [] => ret _news_payload
  | element :: rest =>
      do step <- try_except (process_element self i element _news_payload)
                   (fun error => (logging WARNING (ElementError error) ;;
                                  ret (_news_payload, Next)));
      match step with
      | (payload, Next) => process_loop self (S i) rest payload
      | (payload, Break) => ret payload
      end
  end.

Definition process_news_payload (self : MainScrapper) (news_list : list WebElement)
  : M (list dict) :=
  process_loop self 0 news_list [].

(** [enumerate(l, start)] *)
Fixpoint enumerate {A} (start : nat) (l : list A) : list (nat * A) :=
  match l with
  | [] => []
  | x :: l' => (start, x) :: enumerate (S start) l'
  end.

Definition set_cell_value (row col : nat) (v : value)
    (wb : gmap (nat * nat) value) : gmap (nat * nat) value :=
  <[(row, col) := v]> wb.

Definition write_header (keys : list text) (wb : gmap (nat * nat) value)
  : gmap (nat * nat) value :=
  foldl (fun wb ck => set_cell_value 1 (fst ck) (VStr (snd ck)) wb)
        wb (enumerate 1 keys).

Definition write_rows (payload : list dict) (wb : gmap (nat * nat) value)
  : gmap (nat * nat) value :=
  foldl (fun wb rd =>
           foldl (fun wb ckv => set_cell_value (fst rd) (fst ckv) (snd (snd ckv)) wb)
                 wb (enumerate 1 (snd rd)))
        wb (enumerate 2 payload).

Definition save_payload_to_excel (payload : list dict) : M unit :=
  do present <- workbook_exists;
  do wb <- (if negb present then create_workbook else open_workbook);
  do first <- index payload 0;
  let keys := map fst first in
  save_workbook (write_rows payload (write_header keys wb)).

Section Navigation.
Context `{Browser}.

Definition search_news (self : MainScrapper) : M unit :=
  set_window_size (window_size self) ;;
  do size <- get_window_size;
  (if 992 <? fst size
   then (click_element ENABLE_SEARCH_BUTTON_BIG ;;
         input_text SEARCH_INPUT_BIG (search_phrase self))
   else (click_element ENABLE_SEARCH_BUTTON_SMALL ;;
         input_text SEARCH_INPUT_SMALL (search_phrase self))) ;;
  click_button SEARCH_BUTTON_ID.

(** The [while] loop pressing "load more"; it runs as long as the page
    shows the button, [Diverge] when that is longer than [fuel]. *)
Fixpoint load_more (fuel : nat) : M unit :=
  match fuel with
  | O => fun w => (Diverge, w)
  | S n =>
      do more <- does_page_contain_element LOAD_MODE_BUTTON;
      if more
      then (execute_javascript "window.scrollTo(0, document.body.scrollHeight);" ;;
            click_element LOAD_MODE_BUTTON ;;
            load_more n)
      else ret tt
  end.

Definition get_news_list_by_date (fuel : nat) : M (list WebElement) :=
  select_from_list_by_value SEARCH_SORT_OPTIONS "date" ;;
  wait_until_located (ByXPath MAIN_CONTENT) 3 ;;
  load_more fuel ;;
  find_elements MAIN_CONTENT.

(** The [try] block of [scrape]. *)
Definition scrape_body (self : MainScrapper) (fuel : nat) : M unit :=
  search_news self ;;
  wait_until_located (ById "search-sort-option") 2 ;;
  do news_list <- get_news_list_by_date fuel;
  do payload <- process_news_payload self news_list;
  save_payload_to_excel payload.

Definition scrape (self : MainScrapper) (fuel : nat) : M unit :=
  try_finally
    (try_except (scrape_body self fuel)
       (fun error =>
          logging ERROR (ScrapeError error) ;;
          close_all_browsers ;;
          raise (PlainException error)))
    close_all_browsers.
End Navigation.

(** ** Specification vocabulary *)

Definition ends_word (pre : text) : bool :=
  match last pre with
  | Some c => is_word c
  | None => false
  end.

Definition starts_word (post : text) : bool :=
  match post with
  | c :: _ => is_word c
  | [] => false
  end.

(** When [r] matches the piece [m] of a text, with [pre] before the piece
    and [post] after it. *)
Inductive Matches : regex -> text -> text -> text -> Prop :=
| M_eps pre post : Matches REps pre [] post
| M_char c pre post : Matches (RChar c) pre [c] post
| M_class k c pre post :
    in_class k c = true -> Matches (RClass k) pre [c] post
| M_seq r1 r2 pre m1 m2 post :
    Matches r1 pre m1 (m2 ++ post) ->
    Matches r2 (pre ++ m1) m2 post ->
    Matches (RSeq r1 r2) pre (m1 ++ m2) post
| M_rep_stop r hi pre post : Matches (RRep r 0 hi) pre [] post
| M_rep_more r lo hi pre m1 m2 post :
    hi <> Some 0%nat ->
    m1 <> [] ->
    Matches r pre m1 (m2 ++ post) ->
    Matches (RRep r (pred lo) (pred <$> hi)) (pre ++ m1) m2 post ->
    Matches (RRep r lo hi) pre (m1 ++ m2) post
| M_group r pre m post : Matches r pre m post -> Matches (RGroup r) pre m post
| M_wordb pre post :
    xorb (ends_word pre) (starts_word post) = true -> Matches RWordB pre [] post.

(** One or more digits. *)
Definition digits (t : text) : Prop := t <> [] /\ Forall (fun c => is_digit c = true) t.

(** Groups of a comma and three digits. *)
Inductive comma_groups : text -> Prop :=
| cg_nil : comma_groups []
| cg_cons a b c t :
    is_digit a = true -> is_digit b = true -> is_digit c = true ->
    comma_groups t -> comma_groups (","%char :: a :: b :: c :: t).

(** An integer with optional thousands separators. *)
Definition integer_sep (t : text) : Prop :=
  exists n g, t = n ++ g /\ digits n /\ comma_groups g.

(** Nothing, or a point and one or two digits. *)
Definition decimals (t : text) : Prop :=
  t = [] \/ exists d, t = "."%char :: d /\ digits d /\ (length d <= 2)%nat.

(** The text holds a dollar sign, an integer with optional thousands
    separators and up to two decimal places. *)
Definition has_dollar_amount (t : text) : Prop :=
  exists pre n f post,
    t = pre ++ "$"%char :: n ++ f ++ post /\ integer_sep n /\ decimals f.

Definition blanks (t : text) : Prop :=
  t <> [] /\ Forall (fun c => is_space c = true) t.

(** The text holds a number [n] of the given form, blanks and the word
    [unit_name]; the number starts a word and the unit ends one. *)
Definition has_amount_in (number : text -> Prop) (unit_name t : text) : Prop :=
  exists pre n b post,
    t = pre ++ n ++ b ++ unit_name ++ post /\ number n /\ blanks b
    /\ ends_word pre = false /\ starts_word post = false.

(** [sep.join(parts)] *)
Fixpoint str_join (sep : text) (parts : list text) : text :=
  match parts with
  | [] => []
  | p :: rest =>
      match rest with
      | [] => p
      | _ :: _ => p ++ sep ++ str_join sep rest
      end
  end.

(** The number of positions of [s] where [sub] occurs. *)
Fixpoint occurrences (sub s : text) : nat :=
  ((if starts_with sub s then 1 else 0)
   + match s with
     | [] => 0
     | _ :: s' => occurrences sub s'
     end)%nat.

(** No end of [p], other than [p] itself, is also a beginning of [p]: two
    occurrences of [p] cannot overlap. *)
Definition unbordered (p : text) : bool :=
  forallb (fun k => negb (starts_with (drop k p) p)) (seq 1 (length p - 1)).

(** The date the extractor reads in a footer. *)
Definition footer_date (footer : text) : option datetime :=
  match str_strip footer with
  | [] => None
  | _ :: _ =>
      m ← search (RSeq (rlit (lit "Published On ")) date_group) footer;
      strptime (group1 footer m)
  end.

(** The segment before the last ellipsis, or the whole text when it has
    no ellipsis; trimmed. *)
Definition summary (rendered : text) : text :=
  let segments := str_split (lit "...") rendered in
  str_strip (default rendered
               (segments !! (length segments - 2)%nat)).

(** [d.get(key)] *)
Fixpoint dict_get (key : text) (d : dict) : option value :=
  match d with
  | [] => None
  | (k, v) :: d' => if bool_decide (k = key) then Some v else dict_get key d'
  end.

(** The record of a handle, when all its parts can be read and the image
    request is answered; the recency test left aside. *)
Definition build_record (self : MainScrapper) (get : text -> option response)
    (i : nat) (element : WebElement) : option dict :=
  title ← el_title element;
  rendered ← el_description element;
  footer ← el_footer element;
  date ← footer_date footer;
  phrase ← search_phrase self;
  src ← el_image element;
  url ← src;
  resp ← get url;
  Some [(lit "title", VStr title);
        (lit "date", VStr (strftime date));
        (lit "description", VStr (summary rendered));
        (lit "search_term_occurrence",
          VInt (Z.of_nat (str_count phrase title + str_count phrase (summary rendered))));
        (lit "contains_money",
          VBool (contains_money title || contains_money (summary rendered)));
        (lit "img_file_name",
          VStr (if status_code resp =? 200
                then lit "img_" ++ decimal i ++ lit ".png"
                else lit "Unavailable"))].

(** The month the extractor compares with the limit: that of the footer
    date, once title and description have been read. *)
Definition parsed_month (element : WebElement) : option Z :=
  _ ← el_title element;
  _ ← el_description element;
  footer ← el_footer element;
  month <$> footer_date footer.

Definition too_old (self : MainScrapper) (element : WebElement) : bool :=
  match parsed_month element with
  | Some m => m <? month_limit self
  | None => false
  end.

(** The records of the handles of a list, in order; [i] is the position
    of the first handle. *)
Fixpoint records_from (self : MainScrapper) (get : text -> option response)
    (i : nat) (handles : list WebElement) : list dict :=
  match handles with
  | [] => []
  | element :: rest =>
      option_list (build_record self get i element)
      ++ records_from self get (S i) rest
  end.

Definition article_fields : list text :=
  map lit ["title"; "date"; "description"; "search_term_occurrence";
           "contains_money"; "img_file_name"].

(** ** Sample data *)

Definition answers (status : Z) : text -> option response :=
  fun _ => Some {| status_code := status; content := lit "PNG" |}.

Definition no_answer : text -> option response := fun _ => None.

Definition sample_world (get : text -> option response) : World :=
  {| log := []; dirs := ∅; files := ∅; workbook := None; http := get;
     sessions := 1%nat |}.

Definition sample_scrapper (limit : Z) : MainScrapper :=
  {| month_limit := limit; search_phrase := Some (lit "Gaza");
     window_size := (1280, 720); img_directory := lit "output/imgs" |}.

Definition article (title description footer : string) : WebElement :=
  {| el_title := Some (lit title); el_description := Some (lit description);
     el_footer := Some (lit footer);
     el_image := Some (Some (lit "https://example.org/a.jpg")) |}.

Definition gaza_article : WebElement :=
  article "Gaza under fire"
          "2 hours ago ... Situation in Gaza worsens, Gaza residents flee ..."
          "Published On 05 Mar 2024".

Definition plain_article : WebElement :=
  article "Aid package worth $2,500.00 approved" "No ellipsis here"
          "Published On 7 Apr 2024".

Definition updated_article : WebElement :=
  article "Gaza talks resume" "1 day ago ... Talks ..." "Last update 31 Dec 2023".

Definition january_article : WebElement :=
  article "Gaza in January" "3 months ago ... Winter ..." "Published On 15 Jan 2024".

Definition untitled_article : WebElement :=
  {| el_title := None; el_description := Some (lit "... x ...");
     el_footer := Some (lit "Published On 15 Jan 2024"); el_image := None |}.

Definition unnamed_scrapper : MainScrapper :=
  {| month_limit := 1; search_phrase := None;
     window_size := (1280, 720); img_directory := lit "output/imgs" |}.

(** A page without a search button: every click fails. *)
Definition broken_page : Browser :=
  {| set_window_size := fun _ => ret tt;
     get_window_size := ret (1280, 720);
     click_element := fun l => raise (NoSuchElement l);
     input_text := fun _ _ => ret tt;
     click_button := fun _ => ret tt;
     select_from_list_by_value := fun _ _ => ret tt;
     wait_until_located := fun _ _ => ret tt;
     does_page_contain_element := fun _ => ret false;
     execute_javascript := fun _ => ret tt;
     find_elements := fun _ => ret [] |}.

(** A page whose search works and shows the given articles at once. *)
Definition result_page (articles : list WebElement) : Browser :=
  {| set_window_size := fun _ => ret tt;
     get_window_size := ret (1280, 720);
     click_element := fun _ => ret tt;
     input_text := fun _ _ => ret tt;
     click_button := fun _ => ret tt;
     select_from_list_by_value := fun _ _ => ret tt;
     wait_until_located := fun _ _ => ret tt;
     does_page_contain_element := fun _ => ret false;
     execute_javascript := fun _ => ret tt;
     find_elements := fun _ => ret articles |}.

(** [r] matches [s] between the positions [i] and [j]. *)
Definition matches_at (s : text) (r : regex) (i j : nat) : Prop :=
  (i <= j <= length s)%nat
  /\ Matches r (take i s) (take (j - i) (drop i s)) (drop j s).

(** From [w] to [w'] only log entries, directories and image files under
    output/imgs/ have been added; the rest is as it was. *)
Definition only_adds_images (w w' : World) : Prop :=
  (exists l, log w' = log w ++ l)
  /\ dirs w ⊆ dirs w'
  /\ (forall p, starts_with (lit "output/imgs/img_") p = false ->
       files w' !! p = files w !! p)
  /\ workbook w' = workbook w
  /\ http w' = http w
  /\ sessions w' = sessions w.

(** Checks for [n] consecutive years from [y] on that the year, written
    in decimal after a blank, is read back by [parse_year]; [u] holds the
    digits of [y], lowest first. *)
Fixpoint years_parse_back (n : nat) (y : Z) (u : Decimal.uint) : bool :=
  match n with
  | O => true
  | S n' =>
      match parse_blank (" "%char :: lit (NilZero.string_of_uint (Decimal.rev u))) with
      | Some t4 =>
          match parse_year t4 with
          | Some (v, []) => v =? y
          | _ => false
          end
      | None => false
      end
      && years_parse_back n' (y + 1) (Decimal.Little.succ u)
  end.

(** * Properties *)

(** ** Strings *)

Lemma starts_with_spec (sub s : text) :
  starts_with sub s = true <-> exists t, s = sub ++ t.
Proof.
  revert s. induction sub as [|a sub IH]; intros s; simpl.
  - split; [eauto | done].
  - destruct s as [|b s].
    + split; [done | intros [t Ht]; done].
    + rewrite andb_true_iff, bool_decide_eq_true, IH. split.
      * intros [-> [t ->]]. eauto.
      * intros [t Ht]. injection Ht as -> ->. eauto.
Qed.

Lemma str_find_some (sub s : text) (j : nat) :
  str_find sub s = Some j ->
  s = take j s ++ sub ++ drop (j + length sub) s /\ (j + length sub <= length s)%nat.
Proof.
  revert j. induction s as [|c s IH]; intros j; simpl.
  - destruct (starts_with sub []) eqn:E; [|done].
    intros [= <-]. apply starts_with_spec in E as [t Ht].
    destruct sub; [|done]. by simpl.
  - destruct (starts_with sub (c :: s)) eqn:E.
    + intros [= <-]. apply starts_with_spec in E as [t Ht].
      assert (Hlen : length (c :: s) = (length sub + length t)%nat)
        by (by rewrite Ht, length_app).
      rewrite Ht. cbn [Nat.add]. rewrite drop_app_length.
      split; [by destruct (sub ++ t) | simpl in Hlen; lia].
    + destruct (str_find sub s) as [k|] eqn:F; [|done].
      intros [= <-]. destruct (IH k eq_refl) as [H1 H2].
      simpl. split; [by f_equal | lia].
Qed.

Lemma str_find_none (sub s : text) :
  str_find sub s = None -> forall a b, s <> a ++ sub ++ b.
Proof.
  induction s as [|c s IH]; simpl.
  - destruct (starts_with sub []) eqn:E; [done|].
    intros _ a b Hs. symmetry in Hs.
    apply app_eq_nil in Hs as [-> Hs]. apply app_eq_nil in Hs as [-> ->]. done.
  - destruct (starts_with sub (c :: s)) eqn:E; [done|].
    destruct (str_find sub s) eqn:F; [done|]. intros _ a b Hs.
    destruct a as [|x a].
    + assert (starts_with sub (c :: s) = true); [|congruence].
      apply starts_with_spec. exists b. done.
    + injection Hs as -> Hs. by eapply IH.
Qed.

Lemma str_split_loop_length (n : nat) (sep s : text) :
  (1 <= length (str_split_loop n sep s))%nat.
Proof. destruct n; simpl; [lia|]. destruct (str_find sep s); simpl; lia. Qed.

Lemma str_split_length_count (n : nat) (sub s : text) :
  length (str_split_loop n sub s) = S (str_count_loop n sub s).
Proof.
  revert s. induction n as [|n IH]; intros s; simpl; [done|].
  destruct (str_find sub s); simpl; [by rewrite IH | done].
Qed.

Lemma py_index_last_but_one {A} (l : list A) :
  l <> [] ->
  py_index l (Z.of_nat (length l) - 2)
  = match length l with
    | 1%nat => l !! 0%nat
    | n => l !! (n - 2)%nat
    end.
Proof.
  intros Hl. unfold py_index.
  destruct l as [|a [|b l]]; [done | done |].
  cbn [length].
  destruct (Z.ltb_spec (Z.of_nat (S (S (length l))) - 2) 0); [lia|].
  destruct (Z.leb_spec 0 (Z.of_nat (S (S (length l))) - 2)); [|lia].
  destruct (Z.ltb_spec (Z.of_nat (S (S (length l))) - 2) (Z.of_nat (S (S (length l))))); [|lia].
  cbn [andb]. f_equal. lia.
Qed.

Lemma str_split_single (sep s : text) :
  length (str_split sep s) = 1%nat -> str_split sep s = [s].
Proof.
  unfold str_split. destruct (length s); simpl; [done|].
  destruct (str_find sep s); simpl; [|done].
  pose proof (str_split_loop_length n sep (drop (n0 + length sep) s)). lia.
Qed.

Lemma str_split_no_sep (sep s : text) :
  (forall a b, s <> a ++ sep ++ b) -> str_split sep s = [s].
Proof.
  intros Hno. unfold str_split. destruct (length s); simpl; [done|].
  destruct (str_find sep s) as [j|] eqn:F; [|done].
  apply str_find_some in F as [F _]. by apply Hno in F.
Qed.

Lemma str_split_with_sep (sep s a b : text) :
  sep <> [] -> s = a ++ sep ++ b -> (2 <= length (str_split sep s))%nat.
Proof.
  intros Hsep Hs. unfold str_split.
  destruct (length s) eqn:Hlen.
  - destruct s; [|done]. symmetry in Hs.
    apply app_eq_nil in Hs as [_ Hs]. apply app_eq_nil in Hs as [-> _]. done.
  - simpl. destruct (str_find sep s) as [j|] eqn:F.
    + simpl. pose proof (str_split_loop_length n sep (drop (j + length sep) s)). lia.
    + by eapply str_find_none in F.
Qed.

(** The index [len - 2] is always in range: it is -1 for a single segment. *)
Lemma index_last_but_one (sep s : text) (w : World) :
  let segments := str_split sep s in
  index segments (Z.of_nat (length segments) - 2) w
  = (Ok (default s (segments !! (length segments - 2)%nat)), w).
Proof.
  intros segments. unfold index.
  assert (Hne : segments <> []).
  { intros E. pose proof (str_split_loop_length (length s) sep s) as H.
    fold (str_split sep s) in H. fold segments in H. rewrite E in H. simpl in H. lia. }
  rewrite py_index_last_but_one by done.
  destruct (length segments) as [|[|n]] eqn:Hlen.
  - by destruct segments.
  - apply str_split_single in Hlen. fold segments in Hlen. by rewrite Hlen.
  - destruct (segments !! (S (S n) - 2)%nat) eqn:E; [done|].
    apply lookup_ge_None in E. lia.
Qed.

(** ** Splitting and counting *)

Lemma str_split_join (sep : text) (n : nat) :
  forall s, str_join sep (str_split_loop n sep s) = s.
Proof.
  induction n as [|n IH]; intros s; cbn [str_split_loop]; [done|].
  destruct (str_find sep s) as [j|] eqn:F; [|done].
  apply str_find_some in F as [F _]. cbn [str_join].
  pose proof (str_split_loop_length n sep (drop (j + length sep) s)) as Hlen.
  specialize (IH (drop (j + length sep) s)).
  destruct (str_split_loop n sep (drop (j + length sep) s)) as [|x l];
    [cbn in Hlen; lia|].
  rewrite IH. by rewrite <- F.
Qed.

Lemma occurrences_before_find (p s : text) (j : nat) :
  str_find p s = Some j -> occurrences p s = occurrences p (drop j s).
Proof.
  revert j. induction s as [|c s IH]; intros j; cbn [str_find].
  - destruct (starts_with p []); [by intros [= <-] | done].
  - destruct (starts_with p (c :: s)) eqn:E; [by intros [= <-]|].
    destruct (str_find p s) as [k|]; [|done]. intros [= <-].
    cbn [occurrences drop]. rewrite E. by rewrite (IH k).
Qed.

Lemma occurrences_no_find (p s : text) :
  str_find p s = None -> occurrences p s = 0%nat.
Proof.
  induction s as [|c s IH]; cbn [str_find occurrences].
  - by destruct (starts_with p []).
  - destruct (starts_with p (c :: s)); [done|].
    destruct (str_find p s); [done|]. intros _. by rewrite IH.
Qed.

Lemma starts_with_shorter (p q rest : text) :
  starts_with p (q ++ rest) = true -> (length q <= length p)%nat ->
  starts_with q p = true.
Proof.
  revert p. induction q as [|c q IH]; intros p Hp Hlen; [by destruct p|].
  destruct p as [|a p]; [cbn in Hlen; lia|]. cbn in Hp |- *.
  apply andb_true_iff in Hp as [Ha Hp]. apply bool_decide_eq_true in Ha as ->.
  rewrite bool_decide_eq_true_2 by done. cbn. apply IH; [done | cbn in Hlen; lia].
Qed.

Lemma unbordered_spec (p : text) (k : nat) :
  unbordered p = true -> (0 < k < length p)%nat ->
  starts_with (drop k p) p = false.
Proof.
  unfold unbordered. rewrite forallb_forall. intros H Hk.
  apply negb_true_iff, H, in_seq. lia.
Qed.

Lemma occurrences_after_end (p rest : text) :
  unbordered p = true ->
  forall n k, (length p - k = n)%nat -> (0 < k <= length p)%nat ->
    occurrences p (drop k p ++ rest) = occurrences p rest.
Proof.
  intros Hp. induction n as [|n IH]; intros k Hn Hk.
  - by rewrite drop_ge by lia.
  - destruct (drop k p) as [|c q] eqn:E.
    { apply (f_equal length) in E. rewrite length_drop in E. cbn in E. lia. }
    assert (Hq : q = drop (S k) p).
    { by rewrite <- Nat.add_1_r, <- (drop_drop p 1 k), E. }
    cbn [app occurrences].
    destruct (starts_with p (c :: q ++ rest)) eqn:Hs.
    + apply (starts_with_shorter p (c :: q) rest) in Hs.
      * rewrite <- E, unbordered_spec in Hs; [done | done | lia].
      * rewrite <- E, length_drop. lia.
    + rewrite Hq. apply IH; lia.
Qed.

Lemma occurrences_at_find (p rest : text) :
  unbordered p = true -> p <> [] ->
  occurrences p (p ++ rest) = S (occurrences p rest).
Proof.
  intros Hp Hne.
  assert (Hs : starts_with p (p ++ rest) = true) by (apply starts_with_spec; eauto).
  destruct p as [|c q]; [done|].
  pose proof (occurrences_after_end (c :: q) rest Hp (length q) 1) as Hafter.
  cbn [drop length] in Hafter. rewrite drop_0 in Hafter.
  cbn [app occurrences] in Hs |- *. rewrite Hs, Hafter; [done | lia | lia].
Qed.

(** For a phrase that cannot overlap itself, [str.count] counts every
    position where the phrase occurs. *)
Lemma str_count_occurrences (p s : text) :
  unbordered p = true -> p <> [] -> str_count p s = occurrences p s.
Proof.
  intros Hp Hne.
  assert (Hlen : (1 <= length p)%nat) by (destruct p; [done | cbn; lia]).
  assert (H : forall n s, (length s <= n)%nat -> str_count_loop n p s = occurrences p s);
    [|unfold str_count; destruct p; [done | by apply H]].
  induction n as [|n IH]; intros s' Hs; cbn [str_count_loop].
  - destruct s'; [|cbn in Hs; lia]. by destruct p.
  - destruct (str_find p s') as [j|] eqn:F.
    + pose proof (str_find_some p s' j F) as [Hsplit Hj].
      assert (Hd : drop j s' = p ++ drop (j + length p) s').
      { rewrite Hsplit at 1. rewrite drop_app_length'; [done|].
        rewrite length_take. lia. }
      rewrite (occurrences_before_find p s' j F), Hd.
      rewrite occurrences_at_find by done. f_equal. apply IH.
      rewrite length_drop. lia.
    + by rewrite occurrences_no_find.
Qed.

(** ** The collaborators leave the HTTP answers alone *)

Lemma convert_string_to_datetime_spec (footer : text) (w : World) :
  exists w',
    convert_string_to_datetime footer w = (Ok (footer_date footer), w')
    /\ http w' = http w
    /\ (w' = w \/ w' = snd (logging WARNING DateParseError w)).
Proof.
  unfold convert_string_to_datetime, footer_date.
  destruct (str_strip footer); [by exists w; eauto|].
  unfold date_patterns. cbn [convert_loop]. unfold bind.
  destruct (search _ footer) as [m|]; cbn [mbind option_bind].
  - destruct (strptime (group1 footer m)); cbn.
    + exists w; eauto.
    + eexists; split; [done|]. split; [done|by right].
  - exists w; eauto.
Qed.

Lemma get_news_image_answered (self : MainScrapper) (url : text) (idx : nat)
    (w : World) (resp : response) :
  http w url = Some resp ->
  exists w',
    get_news_image self (Some url) idx w
    = (Ok (if status_code resp =? 200
           then lit "img_" ++ decimal idx ++ lit ".png"
           else lit "Unavailable"), w')
    /\ http w' = http w
    /\ if status_code resp =? 200
       then files w' !! (lit "output/imgs/" ++ lit "img_" ++ decimal idx ++ lit ".png")
            = Some (content resp)
            /\ last (log w')
               = Some (INFO, ImageSaved (lit "img_" ++ decimal idx ++ lit ".png"))
       else files w' = files w
            /\ last (log w')
               = Some (WARNING, ImageFetchFailed (status_code resp) (content resp)).
Proof.
  intros Hresp. unfold get_news_image, bind, path_exists.
  destruct (bool_decide (img_directory self ∈ dirs w));
    cbn -[lit decimal Z.eqb]; rewrite Hresp;
    destruct (status_code resp =? 200); cbn -[lit decimal];
    (eexists; split; [done|]; split; [done|]; cbn -[lit decimal]);
    rewrite ?last_snoc, ?lookup_insert_eq; done.
Qed.

Lemma get_news_image_unanswered (self : MainScrapper) (src : option text)
    (idx : nat) (w : World) :
  src ≫= http w = None ->
  exists w',
    get_news_image self src idx w = (Raise RequestException, w')
    /\ http w' = http w.
Proof.
  intros Hnone. unfold get_news_image, bind, path_exists.
  destruct (bool_decide (img_directory self ∈ dirs w));
    cbn -[lit decimal Z.eqb]; destruct src as [url|]; cbn in Hnone |- *;
    rewrite ?Hnone; eexists; split; done.
Qed.

(** ** One turn of the extraction loop *)

Lemma process_step_spec (self : MainScrapper) (i : nat) (element : WebElement)
    (payload : list dict) (w : World) :
  exists w',
    try_except (process_element self i element payload)
      (fun error => (logging WARNING (ElementError error) ;; ret (payload, Next))) w
    = (Ok (if too_old self element then (payload, Break)
           else (payload ++ option_list (build_record self (http w) i element), Next)),
       w')
    /\ http w' = http w.
Proof.
  unfold try_except, process_element, too_old, parsed_month, build_record.
  destruct (el_title element) as [title|]; cbn [found mbind option_bind];
    [|rewrite app_nil_r; eexists; split; done].
  unfold bind at 1. cbn [ret].
  destruct (el_description element) as [rendered|]; cbn [found mbind option_bind];
    [|rewrite app_nil_r; eexists; split; done].
  unfold bind at 1. cbn [ret].
  unfold bind at 1. rewrite index_last_but_one. fold (summary rendered).
  destruct (el_footer element) as [footer|]; cbn [found mbind option_bind];
    [|rewrite app_nil_r; eexists; split; done].
  unfold bind at 1. cbn [ret].
  unfold bind at 1.
  destruct (convert_string_to_datetime_spec footer w) as (w1 & -> & Hw1 & _).
  destruct (footer_date footer) as [date|]; cbn [fmap option_fmap option_map mbind option_bind];
    [|rewrite app_nil_r; eexists; split; done].
  rewrite (Z.leb_antisym (month date)).
  destruct (month date <? month_limit self); cbn [negb]; [eexists; split; done|].
  destruct (search_phrase self) as [phrase|]; cbn [count_in mbind option_bind];
    [|rewrite app_nil_r; eexists; split; done].
  unfold bind at 1. cbn [ret]. unfold bind at 1. cbn [ret]. 
  destruct (el_image element) as [src|]; cbn [found mbind option_bind];
    [|rewrite app_nil_r; eexists; split; done].
  unfold bind at 1. cbn [ret]. unfold bind at 1.
  destruct (src ≫= http w) as [resp|] eqn:Hresp.
  - destruct src as [url|]; [|done]. cbn in Hresp.
    rewrite <- Hw1 in Hresp.
    destruct (get_news_image_answered self url i w1 resp Hresp) as (w2 & -> & Hw2 & _).
    rewrite Hw1 in Hresp. cbn [mbind option_bind]. rewrite Hresp. cbn [mbind option_bind option_list].
    unfold ret. eexists; split; [done | congruence].
  - assert (Hresp1 : src ≫= http w1 = None) by (by rewrite Hw1).
    destruct (get_news_image_unanswered self src i w1 Hresp1) as (w2 & -> & Hw2).
    destruct src as [url|]; cbn in Hresp |- *; rewrite ?Hresp; rewrite app_nil_r;
      eexists; (split; [done | cbn; congruence]).
Qed.

Lemma process_loop_unfold (self : MainScrapper) (i : nat) (element : WebElement)
    (rest : list WebElement) (payload : list dict) (w : World) :
  process_loop self i (element :: rest) payload w
  = match try_except (process_element self i element payload)
            (fun error => (logging WARNING (ElementError error) ;; ret (payload, Next))) w
    with
    | (Ok (payload', Next), w') => process_loop self (S i) rest payload' w'
    | (Ok (payload', Break), w') => (Ok payload', w')
    | (Raise e, w') => (Raise e, w')
    | (Diverge, w') => (Diverge, w')
    end.
Proof.
  cbn [process_loop]. unfold bind at 1.
  destruct (try_except _ _ w) as [[[payload' []]| |] w']; done.
Qed.

Lemma process_loop_spec (self : MainScrapper) (pre post : list WebElement) :
  Forall (fun e => too_old self e = false) pre ->
  match post with [] => True | e :: _ => too_old self e = true end ->
  forall (i : nat) (payload : list dict) (w : World),
  exists w',
    process_loop self i (pre ++ post) payload w
    = (Ok (payload ++ records_from self (http w) i pre), w')
    /\ http w' = http w.
Proof.
  intros Hpre Hpost. induction Hpre as [|e pre He Hpre IH]; intros i payload w.
  - cbn [app records_from]. rewrite app_nil_r. destruct post as [|e rest].
    + by exists w.
    + rewrite process_loop_unfold.
      destruct (process_step_spec self i e payload w) as (w' & -> & Hw').
      rewrite Hpost. by exists w'.
  - cbn [app records_from]. rewrite process_loop_unfold.
    destruct (process_step_spec self i e payload w) as (w' & -> & Hw').
    rewrite He.
    destruct (IH (S i) (payload ++ option_list (build_record self (http w) i e)) w')
      as (w'' & -> & Hw'').
    exists w''. rewrite Hw', <- app_assoc. split; [done | congruence].
Qed.

Lemma process_loop_total (self : MainScrapper) (news_list : list WebElement) :
  forall (i : nat) (payload : list dict) (w : World),
  exists payload' w', process_loop self i news_list payload w = (Ok payload', w').
Proof.
  induction news_list as [|e rest IH]; intros i payload w.
  - by exists payload, w.
  - rewrite process_loop_unfold.
    destruct (process_step_spec self i e payload w) as (w' & -> & _).
    destruct (too_old self e); [by eexists _, _ | apply IH].
Qed.

Lemma first_too_old (self : MainScrapper) (news_list : list WebElement) :
  exists pre post,
    news_list = pre ++ post
    /\ Forall (fun e => too_old self e = false) pre
    /\ match post with [] => True | e :: _ => too_old self e = true end.
Proof.
  induction news_list as [|e rest (pre & post & -> & Hpre & Hpost)].
  - by exists [], [].
  - destruct (too_old self e) eqn:He.
    + by exists [], (e :: pre ++ post).
    + exists (e :: pre), post. by repeat split; [constructor|].
Qed.

Lemma strptime_month (t : text) (d : datetime) :
  strptime t = Some d -> 1 <= month d <= 12.
Proof.
  unfold strptime. intros H.
  destruct (parse_day t) as [[dd t1]|]; [|done]. cbn in H.
  destruct (parse_blank t1) as [t2|]; [|done]. cbn in H.
  destruct (parse_month t2) as [[m t3]|]; [|done]. cbn in H.
  destruct (parse_blank t3) as [t4|]; [|done]. cbn in H.
  destruct (parse_year t4) as [[y t5]|]; [|done]. cbn in H.
  destruct t5; [|done]. unfold make_date in H.
  destruct (_ && _) eqn:E in H; [|done]. injection H as <-. cbn.
  repeat (apply andb_true_iff in E as [E ?]). lia.
Qed.

Lemma footer_date_month (footer : text) (d : datetime) :
  footer_date footer = Some d -> 1 <= month d <= 12.
Proof.
  unfold footer_date. destruct (str_strip footer); [done|].
  destruct (search _ footer) as [m|]; [|done]. cbn. apply strptime_month.
Qed.

Lemma never_too_old (self : MainScrapper) (element : WebElement) :
  month_limit self <= 1 -> too_old self element = false.
Proof.
  intros Hlimit. unfold too_old, parsed_month.
  destruct (el_title element); [|done]. destruct (el_description element); [|done].
  destruct (el_footer element) as [footer|]; [|done]. cbn.
  destruct (footer_date footer) as [d|] eqn:Hd; [|done]. cbn.
  apply footer_date_month in Hd. lia.
Qed.

Lemma records_from_Forall (P : dict -> Prop) (self : MainScrapper)
    (get : text -> option response) (handles : list WebElement) :
  (forall i e r, build_record self get i e = Some r -> P r) ->
  forall i, Forall P (records_from self get i handles).
Proof.
  intros HP. induction handles as [|e rest IH]; intros i; cbn [records_from].
  - constructor.
  - apply Forall_app. split; [|apply IH].
    destruct (build_record self get i e) eqn:E; cbn; [|constructor].
    repeat constructor. by eapply HP.
Qed.

Lemma records_from_elem (self : MainScrapper) (get : text -> option response)
    (handles : list WebElement) :
  forall (i k : nat) (e : WebElement) (r : dict),
    handles !! k = Some e ->
    build_record self get (i + k) e = Some r ->
    r ∈ records_from self get i handles.
Proof.
  induction handles as [|e' rest IH]; intros i k e r Hk Hr; [done|].
  cbn [records_from]. apply elem_of_app. destruct k as [|k].
  - injection Hk as ->. left. rewrite Nat.add_0_r in Hr. rewrite Hr. cbn. set_solver.
  - right. apply (IH (S i) k e); [done|]. by replace (S i + k)%nat with (i + S k)%nat by lia.
Qed.

Lemma build_record_fields (self : MainScrapper) (get : text -> option response)
    (i : nat) (element : WebElement) (r : dict) :
  build_record self get i element = Some r ->
  exists title rendered phrase url resp,
    el_title element = Some title
    /\ el_description element = Some rendered
    /\ search_phrase self = Some phrase
    /\ el_image element = Some (Some url)
    /\ get url = Some resp
    /\ map fst r = article_fields
    /\ dict_get (lit "title") r = Some (VStr title)
    /\ dict_get (lit "description") r = Some (VStr (summary rendered))
    /\ dict_get (lit "search_term_occurrence") r
       = Some (VInt (Z.of_nat (str_count phrase title
                               + str_count phrase (summary rendered))))
    /\ dict_get (lit "img_file_name") r
       = Some (VStr (if status_code resp =? 200
                     then lit "img_" ++ decimal i ++ lit ".png"
                     else lit "Unavailable")).
Proof.
  unfold build_record. intros H.
  destruct (el_title element) as [title|]; [|done]. cbn in H.
  destruct (el_description element) as [rendered|]; [|done]. cbn in H.
  destruct (el_footer element) as [footer|]; [|done]. cbn in H.
  destruct (footer_date footer) as [date|]; [|done]. cbn in H.
  destruct (search_phrase self) as [phrase|]; [|done]. cbn in H.
  destruct (el_image element) as [[url|]|]; [|done|done]. cbn in H.
  destruct (get url) as [resp|] eqn:Hget; [|done]. cbn in H.
  injection H as <-. exists title, rendered, phrase, url, resp.
  repeat split; done.
Qed.

(** ** Writing cells *)

Lemma write_cells_lookup {A} (g : A -> value) (row : nat) (l : list A) :
  forall (start : nat) (wb : gmap (nat * nat) value) (r c : nat),
    foldl (fun wb cx => set_cell_value row (fst cx) (g (snd cx)) wb) wb
          (enumerate start l) !! (r, c)
    = if bool_decide (r = row /\ (start <= c < start + length l)%nat)
      then g <$> l !! (c - start)%nat
      else wb !! (r, c).
Proof.
  induction l as [|x l IH]; intros start wb r c; cbn [enumerate foldl length].
  - rewrite bool_decide_eq_false_2; [done | lia].
  - rewrite IH. cbn [fst snd]. unfold set_cell_value.
    destruct (decide (r = row /\ (S start <= c < S start + length l)%nat)) as [[-> Hc]|Hn].
    + rewrite !bool_decide_eq_true_2 by lia.
      by replace (c - start)%nat with (S (c - S start)) by lia.
    + rewrite bool_decide_eq_false_2 by done.
      destruct (decide (r = row /\ c = start)) as [[-> ->]|Hn'].
      * rewrite lookup_insert_eq, bool_decide_eq_true_2 by lia.
        by rewrite Nat.sub_diag.
      * rewrite lookup_insert_ne by (intros [= <- <-]; tauto).
        rewrite bool_decide_eq_false_2; [done | lia].
Qed.

Lemma write_header_lookup (keys : list text) (wb : gmap (nat * nat) value)
    (r c : nat) :
  write_header keys wb !! (r, c)
  = if bool_decide (r = 1%nat /\ (1 <= c < 1 + length keys)%nat)
    then VStr <$> keys !! (c - 1)%nat
    else wb !! (r, c).
Proof. apply (write_cells_lookup VStr). Qed.

Lemma write_rows_from_lookup (payload : list dict) :
  forall (start : nat) (wb : gmap (nat * nat) value) (r c : nat),
    foldl (fun wb rd =>
             foldl (fun wb ckv => set_cell_value (fst rd) (fst ckv) (snd (snd ckv)) wb)
                   wb (enumerate 1 (snd rd)))
          wb (enumerate start payload) !! (r, c)
    = match (if bool_decide (start <= r)%nat then payload !! (r - start)%nat else None) with
      | Some d =>
          if bool_decide (1 <= c < 1 + length d)%nat
          then snd <$> d !! (c - 1)%nat
          else wb !! (r, c)
      | None => wb !! (r, c)
      end.
Proof.
  induction payload as [|d payload IH]; intros start wb r c; cbn [enumerate foldl].
  - by destruct (bool_decide _).
  - rewrite IH. cbn [fst snd].
    pose proof (write_cells_lookup (A := text * value) snd start d 1 wb r c) as Hrow.
    cbn [fst snd] in Hrow.
    destruct (decide (S start <= r)%nat) as [Hr|Hr].
    + rewrite !bool_decide_eq_true_2 by lia.
      replace (r - start)%nat with (S (r - S start)) by lia. cbn [lookup list_lookup].
      destruct (payload !! (r - S start)%nat) as [d'|]; [|].
      * destruct (bool_decide (1 <= c < 1 + length d')%nat); [done|].
        rewrite Hrow. rewrite bool_decide_eq_false_2; [done | lia].
      * rewrite Hrow. rewrite bool_decide_eq_false_2; [done | lia].
    + rewrite (bool_decide_eq_false_2 (S start <= r)%nat) by done.
      rewrite Hrow. destruct (decide (r = start)) as [->|Hne].
      * rewrite (bool_decide_eq_true_2 (start <= start)%nat) by lia.
        rewrite Nat.sub_diag. cbn [lookup list_lookup].
        destruct (decide (1 <= c < 1 + length d)%nat).
        -- rewrite !bool_decide_eq_true_2; [done | lia | lia].
        -- rewrite !bool_decide_eq_false_2; [done | lia | lia].
      * rewrite (bool_decide_eq_false_2 (start <= r)%nat) by lia.
        rewrite bool_decide_eq_false_2; [done | lia].
Qed.

Lemma write_rows_lookup (payload : list dict) (wb : gmap (nat * nat) value)
    (r c : nat) :
  write_rows payload wb !! (r, c)
  = match (if bool_decide (2 <= r)%nat then payload !! (r - 2)%nat else None) with
    | Some d =>
        if bool_decide (1 <= c < 1 + length d)%nat
        then snd <$> d !! (c - 1)%nat
        else wb !! (r, c)
    | None => wb !! (r, c)
    end.
Proof. apply write_rows_from_lookup. Qed.

Lemma extraction_helper (self : MainScrapper) (news_list : list WebElement)
    (w : World) :
  exists payload w', process_news_payload self news_list w = (Ok payload, w').
Proof. apply process_loop_total. Qed.

Lemma index_zero {A} (x : A) (l : list A) (w : World) :
  index (x :: l) 0 w = (Ok x, w).
Proof.
  unfold index, py_index. cbn [length]. rewrite Nat2Z.inj_succ.
  change (0 <? 0) with false. cbv iota. change (0 <=? 0) with true. cbn [andb].
  destruct (Z.ltb_spec 0 (Z.succ (Z.of_nat (length l)))); [done | lia].
Qed.

(** ** Sample runs *)

Example scrape_on_broken_page :
  let out := @scrape broken_page (sample_scrapper 1) 5 (sample_world (answers 200)) in
  fst out = Raise (PlainException (NoSuchElement ENABLE_SEARCH_BUTTON_BIG))
  /\ sessions (snd out) = 0%nat
  /\ log (snd out) = [(ERROR, ScrapeError (NoSuchElement ENABLE_SEARCH_BUTTON_BIG))].
Proof. by vm_compute. Qed.

Example scrape_on_result_page :
  let out := @scrape (result_page [gaza_article; january_article])
               (sample_scrapper 3) 5 (sample_world (answers 200)) in
  fst out = Ok tt
  /\ sessions (snd out) = 0%nat
  /\ (workbook (snd out) ≫= lookup (2%nat, 2%nat)) = Some (VStr (lit "05 Mar 2024"))
  /\ (workbook (snd out) ≫= lookup (3%nat, 1%nat)) = None.
Proof. by vm_compute. Qed.

Example scrape_on_empty_page :
  let out := @scrape (result_page []) (sample_scrapper 3) 5
               (sample_world (answers 200)) in
  fst out = Raise (PlainException IndexError) /\ sessions (snd out) = 0%nat.
Proof. by vm_compute. Qed.

Example published_date_is_parsed :
  footer_date (lit "Published On 05 Jan 2024")
  = Some {| year := 2024; month := 1; day := 5 |}
  /\ footer_date (lit "Published On 30 Feb 2024") = None
  /\ footer_date (lit "   ") = None
  /\ footer_date (lit "no date here") = None.
Proof. by vm_compute. Qed.

Example split_examples :
  str_split (lit "...") (lit "a....b...c") = [lit "a"; lit ".b"; lit "c"]
  /\ str_split (lit "...") (lit "abc") = [lit "abc"]
  /\ str_count (lit "aa") (lit "aaaaa") = 2%nat
  /\ str_count [] (lit "abc") = 4%nat.
Proof. by vm_compute. Qed.

(** ** The matcher and the matching relation *)

(** The piece of [s] between positions [i] and [j]. *)
Lemma piece_split (s : text) (i j k : nat) :
  (i <= j <= k)%nat -> (k <= length s)%nat ->
  take (k - i) (drop i s) = take (j - i) (drop i s) ++ take (k - j) (drop j s).
Proof.
  intros Hijk Hk.
  rewrite <- (take_drop (j - i) (drop i s)) at 1.
  rewrite take_app_ge by (rewrite length_take, length_drop; lia).
  rewrite length_take, length_drop, drop_drop.
  replace (i + (j - i))%nat with j by lia.
  f_equal. f_equal. lia.
Qed.

Lemma before_piece (s : text) (i j : nat) :
  (i <= j)%nat -> take i s ++ take (j - i) (drop i s) = take j s.
Proof.
  intros Hij. rewrite <- (take_drop i (take j s)).
  rewrite take_take, Nat.min_l by lia. f_equal.
  by rewrite take_drop_commute, Nat.add_comm, Nat.sub_add.
Qed.

Lemma after_piece (s : text) (j k : nat) :
  (j <= k)%nat -> take (k - j) (drop j s) ++ drop k s = drop j s.
Proof.
  intros Hjk. rewrite <- (take_drop (k - j) (drop j s)) at 2.
  rewrite drop_drop. by replace (j + (k - j))%nat with k by lia.
Qed.

Lemma word_at_drop (s : text) (i : nat) : word_at s i = starts_word (drop i s).
Proof.
  revert i. induction s as [|c s IH]; intros [|i]; try done. apply IH.
Qed.

Lemma word_before (s : text) (i : nat) :
  (i <= length s)%nat ->
  match i with O => false | S p => word_at s p end = ends_word (take i s).
Proof.
  intros Hi. unfold ends_word, word_at. destruct i as [|p]; [done|].
  rewrite last_lookup, length_take, Nat.min_l by lia. cbn [pred].
  by rewrite lookup_take_lt by lia.
Qed.

Lemma at_boundary_spec (s : text) (i : nat) :
  (i <= length s)%nat ->
  at_boundary s i = xorb (ends_word (take i s)) (starts_word (drop i s)).
Proof. intros Hi. unfold at_boundary. by rewrite word_before, word_at_drop. Qed.

Lemma matches_at_seq (s : text) (r1 r2 : regex) (i j k : nat) :
  matches_at s r1 i j -> matches_at s r2 j k -> matches_at s (RSeq r1 r2) i k.
Proof.
  intros [Hij H1] [Hjk H2]. split; [lia|].
  rewrite (piece_split s i j k) by lia. constructor.
  - by rewrite after_piece by lia.
  - by rewrite before_piece by lia.
Qed.

Lemma matches_at_rep_more (s : text) (r : regex) (lo : nat) (hi : option nat)
    (i j k : nat) :
  hi <> Some 0%nat -> (i < j)%nat ->
  matches_at s r i j ->
  matches_at s (RRep r (pred lo) (pred <$> hi)) j k ->
  matches_at s (RRep r lo hi) i k.
Proof.
  intros Hhi Hlt [Hij H1] [Hjk H2]. split; [lia|].
  rewrite (piece_split s i j k) by lia. constructor; [done| | |].
  - intros E. apply (f_equal length) in E.
    rewrite length_take, length_drop in E. simpl in E. lia.
  - by rewrite after_piece by lia.
  - by rewrite before_piece by lia.
Qed.

Lemma rep_run_sound (s : text) (r : regex) (step : nat -> cap -> list (nat * cap)) :
  (forall i g j g', (i <= length s)%nat -> In (j, g') (step i g) -> matches_at s r i j) ->
  forall fuel lo hi i g k g',
    (i <= length s)%nat ->
    In (k, g') (rep_run step fuel lo hi i g) ->
    matches_at s (RRep r lo hi) i k.
Proof.
  intros Hstep.
  assert (Hstop : forall lo hi i g k g',
             (i <= length s)%nat ->
             In (k, g') (match lo with O => [(i, g)] | S _ => @nil (nat * cap) end) ->
             matches_at s (RRep r lo hi) i k).
  { intros lo hi i g k g' Hi Hin. destruct lo; [|done].
    destruct Hin as [[= <- <-]|[]]. split; [lia|].
    rewrite Nat.sub_diag. cbn [take]. constructor. }
  induction fuel as [|n IH]; intros lo hi i g k g' Hi Hin; cbn [rep_run] in Hin.
  - by eapply Hstop.
  - apply in_app_iff in Hin as [Hin|Hin]; [|by eapply Hstop].
    assert (Hhi : hi <> Some 0%nat) by (by intros ->).
    assert (Hin' : In (k, g')
              (flat_map (fun jg : nat * cap =>
                           if bool_decide (i < fst jg)%nat
                           then rep_run step n (pred lo) (pred <$> hi) (fst jg) (snd jg)
                           else []) (step i g))).
    { by destruct hi as [[|h]|]. }
    apply in_flat_map in Hin' as ([j g1] & Hj & Hk). cbn [fst snd] in Hk.
    destruct (bool_decide_reflect (i < j)%nat) as [Hlt|]; [|done].
    pose proof (Hstep i g j g1 Hi Hj) as Hm.
    apply (matches_at_rep_more s r lo hi i j k); [done..|].
    eapply IH; [|done]. destruct Hm as [? _]. lia.
Qed.

Lemma run_sound (s : text) (r : regex) :
  forall i g j g',
    (i <= length s)%nat -> In (j, g') (run s r i g) -> matches_at s r i j.
Proof.
  induction r as [|c|k|r1 IH1 r2 IH2|r IH lo hi|r IH|]; intros i g j g' Hi Hin;
    cbn [run] in Hin.
  - destruct Hin as [[= <- <-]|[]]. split; [lia|].
    rewrite Nat.sub_diag. constructor.
  - destruct (s !! i) as [c'|] eqn:E; [|done].
    destruct (bool_decide_reflect (c = c')) as [->|]; [|done].
    destruct Hin as [[= <- <-]|[]].
    pose proof (lookup_lt_Some _ _ _ E). split; [lia|].
    replace (S i - i)%nat with 1%nat by lia.
    rewrite (drop_S _ _ _ E). cbn [take]. constructor.
  - destruct (s !! i) as [c'|] eqn:E; [|done].
    destruct (in_class k c') eqn:Hk; [|done].
    destruct Hin as [[= <- <-]|[]].
    pose proof (lookup_lt_Some _ _ _ E). split; [lia|].
    replace (S i - i)%nat with 1%nat by lia.
    rewrite (drop_S _ _ _ E). cbn [take]. by constructor.
  - apply in_flat_map in Hin as ([j1 g1] & H1 & H2). cbn [fst snd] in H2.
    pose proof (IH1 _ _ _ _ Hi H1) as Hm1.
    apply (matches_at_seq s r1 r2 i j1 j); [done|].
    eapply IH2; [|done]. destruct Hm1 as [? _]. lia.
  - eapply (rep_run_sound s r (run s r)); [|done..]. intros. by eapply IH.
  - apply in_map_iff in Hin as ([j1 g1] & [= <- <-] & H1). cbn [fst].
    destruct (IH _ _ _ _ Hi H1) as [? Hm]. split; [done|]. by constructor.
  - destruct (at_boundary s i) eqn:Hb; [|done].
    destruct Hin as [[= <- <-]|[]]. split; [lia|].
    rewrite Nat.sub_diag. cbn [take]. constructor.
    by rewrite <- at_boundary_spec.
Qed.

Lemma lookup_middle_char (pre post : text) (c : ascii) :
  (pre ++ [c] ++ post) !! length pre = Some c.
Proof. cbn [app]. by apply list_lookup_middle. Qed.

Lemma rep_run_complete (r : regex) :
  (forall pre m post g,
      Matches r pre m post ->
      exists g', In ((length pre + length m)%nat, g')
                    (run (pre ++ m ++ post) r (length pre) g)) ->
  forall rr pre m post,
    Matches rr pre m post ->
    forall lo hi fuel g,
      rr = RRep r lo hi ->
      (length m + length post < fuel)%nat ->
      exists g', In ((length pre + length m)%nat, g')
                    (rep_run (run (pre ++ m ++ post) r) fuel lo hi (length pre) g).
Proof.
  intros IHr rr pre m post HM.
  induction HM as [| | | | r0 hi0 pre post | r0 lo0 hi0 pre m1 m2 post Hhi Hne H1 _ H2 IH2 | |];
    intros lo hi fuel g E Hfuel; try discriminate; injection E as ? ? ?; subst.
  - exists g. cbn [length]. rewrite Nat.add_0_r.
    destruct fuel; cbn [rep_run]; [by left|]. apply in_app_iff. right. by left.
  - destruct fuel as [|n]; [cbn in Hfuel; lia|]. cbn [rep_run].
    destruct (IHr pre m1 (m2 ++ post) g H1) as (g1 & Hin1).
    rewrite <- app_assoc.
    assert (Hlen1 : (0 < length m1)%nat) by (destruct m1; [done | cbn; lia]).
    edestruct (IH2 (pred lo) (pred <$> hi) n g1 eq_refl) as (g2 & Hin2).
    { rewrite length_app in Hfuel. lia. }
    exists g2. apply in_app_iff. left.
    assert (Hflat : In ((length pre + length (m1 ++ m2))%nat, g2)
              (flat_map (fun jg : nat * cap =>
                           if bool_decide (length pre < fst jg)%nat
                           then rep_run (run (pre ++ m1 ++ m2 ++ post) r) n
                                  (pred lo) (pred <$> hi) (fst jg) (snd jg)
                           else [])
                        (run (pre ++ m1 ++ m2 ++ post) r (length pre) g))).
    { apply in_flat_map. exists ((length pre + length m1)%nat, g1). split; [done|].
      cbn [fst snd]. rewrite bool_decide_eq_true_2 by lia.
      rewrite <- app_assoc, length_app in Hin2.
      by rewrite length_app, Nat.add_assoc. }
    by destruct hi as [[|h]|].
Qed.

Lemma run_complete (r : regex) :
  forall pre m post g,
    Matches r pre m post ->
    exists g', In ((length pre + length m)%nat, g')
                  (run (pre ++ m ++ post) r (length pre) g).
Proof.
  induction r as [|c|k|r1 IH1 r2 IH2|r IH lo hi|r IH|]; intros pre m post g HM.
  - inversion HM; subst. exists g. cbn [length]. rewrite Nat.add_0_r. by left.
  - inversion HM; subst. exists g. cbn [run]. rewrite lookup_middle_char.
    rewrite bool_decide_eq_true_2 by done. cbn [length]. rewrite Nat.add_1_r. by left.
  - inversion HM; subst. exists g. cbn [run]. rewrite lookup_middle_char.
    match goal with H : in_class _ _ = true |- _ => rewrite H end.
    cbn [length]. rewrite Nat.add_1_r. by left.
  - inversion HM as [| | |? ? ? m1 m2 ? H1 H2| | | |]; subst.
    destruct (IH1 pre m1 (m2 ++ post) g H1) as (g1 & Hin1).
    destruct (IH2 (pre ++ m1) m2 post g1 H2) as (g2 & Hin2).
    exists g2. cbn [run]. apply in_flat_map.
    exists ((length pre + length m1)%nat, g1). rewrite <- app_assoc. split; [done|].
    cbn [fst snd]. rewrite <- app_assoc, length_app in Hin2.
    by rewrite length_app, Nat.add_assoc.
  - cbn [run]. eapply (rep_run_complete r IH); [done..|].
    rewrite !length_app. lia.
  - inversion HM; subst.
    match goal with H : Matches r _ _ _ |- _ => destruct (IH pre m post g H) as (g1 & Hin1) end.
    eexists. cbn [run]. apply in_map_iff. exists ((length pre + length m)%nat, g1).
    split; [done | done].
  - inversion HM; subst. exists g. cbn [run length]. rewrite Nat.add_0_r.
    rewrite at_boundary_spec by (rewrite length_app; lia).
    rewrite take_app_length, drop_app_length. cbn [app].
    match goal with H : xorb _ _ = true |- _ => rewrite H end. by left.
Qed.

Lemma classic_search (r : regex) (s : text) :
  (exists k, (k <= length s)%nat /\ run s r k None <> [])
  \/ (forall k, (k <= length s)%nat -> run s r k None = []).
Proof.
  generalize (length s) as n. induction n as [|n [(k & Hk & H)|H]].
  - destruct (run s r 0 None) eqn:E.
    + right. intros k Hk. by replace k with 0%nat by lia.
    + left. exists 0%nat. by rewrite E.
  - left. exists k. split; [lia | done].
  - destruct (run s r (S n) None) eqn:E.
    + right. intros k Hk. destruct (decide (k = S n)) as [->|]; [done|]. apply H. lia.
    + left. exists (S n). by rewrite E.
Qed.

Lemma search_from_none (r : regex) (s : text) (n : nat) :
  forall i,
    search_from r s i n = None <->
    forall k, (i <= k <= i + n)%nat -> run s r k None = [].
Proof.
  induction n as [|n IH]; intros i; cbn [search_from]; unfold match_at.
  - destruct (run s r i None) as [|[j g] l] eqn:E.
    + split; [|done]. intros _ k Hk. by replace k with i by lia.
    + split; [done|]. intros H. specialize (H i ltac:(lia)). by rewrite E in H.
  - destruct (run s r i None) as [|[j g] l] eqn:E.
    + rewrite IH. split.
      * intros H k Hk. destruct (decide (k = i)) as [->|]; [done|]. apply H. lia.
      * intros H k Hk. apply H. lia.
    + split; [done|]. intros H. specialize (H i ltac:(lia)). by rewrite E in H.
Qed.

(** [re.search] finds a match exactly when some piece of the text matches. *)
Lemma search_spec (r : regex) (s : text) :
  is_Some (search r s) <->
  exists pre m post, s = pre ++ m ++ post /\ Matches r pre m post.
Proof.
  split.
  - intros Hsome. destruct (search r s) as [mt|] eqn:E; [|by destruct Hsome].
    assert (Hex : exists k, (k <= length s)%nat /\ run s r k None <> []).
    { destruct (classic_search r s) as [H|H]; [done|].
      unfold search in E. rewrite (proj2 (search_from_none r s (length s) 0%nat)) in E; [done|].
      intros k Hk. apply H. lia. }
    destruct Hex as (k & Hk & Hrun).
    destruct (run s r k None) as [|[j g] l] eqn:Er; [done|].
    destruct (run_sound s r k None j g Hk) as [Hkj HM]; [rewrite Er; by left|].
    exists (take k s), (take (j - k) (drop k s)), (drop j s). split; [|done].
    by rewrite after_piece, take_drop by lia.
  - intros (pre & m & post & -> & HM).
    destruct (run_complete r pre m post None HM) as (g' & Hin).
    destruct (search r (pre ++ m ++ post)) eqn:E; [done|].
    unfold search in E.
    rewrite (search_from_none r _ _ 0%nat) in E.
    rewrite (E (length pre)) in Hin; [done|]. rewrite !length_app. lia.
Qed.

(** ** What the money patterns match *)

Lemma matches_eps (pre m post : text) : Matches REps pre m post <-> m = [].
Proof. split; [by inversion 1 | intros ->; constructor]. Qed.

Lemma matches_char (c : ascii) (pre m post : text) :
  Matches (RChar c) pre m post <-> m = [c].
Proof. split; [by inversion 1 | intros ->; constructor]. Qed.

Lemma matches_class (k : cclass) (pre m post : text) :
  Matches (RClass k) pre m post <-> exists c, m = [c] /\ in_class k c = true.
Proof.
  split; [inversion 1; eauto | intros (c & -> & Hc); by constructor].
Qed.

Lemma matches_wordb (pre m post : text) :
  Matches RWordB pre m post
  <-> m = [] /\ xorb (ends_word pre) (starts_word post) = true.
Proof. split; [by inversion 1 | intros [-> H]; by constructor]. Qed.

Lemma matches_seq (r1 r2 : regex) (pre m post : text) :
  Matches (RSeq r1 r2) pre m post
  <-> exists m1 m2,
        m = m1 ++ m2 /\ Matches r1 pre m1 (m2 ++ post)
        /\ Matches r2 (pre ++ m1) m2 post.
Proof.
  split; [inversion 1; subst; eauto | intros (m1 & m2 & -> & H1 & H2); by constructor].
Qed.

Lemma matches_rlit (u pre m post : text) : Matches (rlit u) pre m post <-> m = u.
Proof.
  revert pre m. induction u as [|c u IH]; intros pre m; cbn [rlit].
  - apply matches_eps.
  - rewrite matches_seq. split.
    + intros (m1 & m2 & -> & H1 & H2). apply matches_char in H1 as ->.
      apply IH in H2 as ->. done.
    + intros ->. exists [c], u. split; [done|]. split; [constructor | by apply IH].
Qed.

Lemma matches_rep_class (k : cclass) (lo : nat) (hi : option nat) (pre m post : text) :
  Matches (RRep (RClass k) lo hi) pre m post
  <-> (lo <= length m)%nat
      /\ (forall h, hi = Some h -> (length m <= h)%nat)
      /\ Forall (fun c => in_class k c = true) m.
Proof.
  split.
  - intros HM. remember (RRep (RClass k) lo hi) as rr eqn:E. revert lo hi E.
    induction HM as [| | | | r0 hi0 pre post | r0 lo0 hi0 pre m1 m2 post Hhi Hne H1 _ H2 IH2 | |];
      intros lo hi E; try discriminate; injection E as ? ? ?; subst.
    + cbn. split; [lia|]. split; [intros; lia | constructor].
    + apply matches_class in H1 as (c & -> & Hc).
      destruct (IH2 (pred lo) (pred <$> hi) eq_refl) as (Hlo & Hhi' & Hall).
      cbn [app length]. split; [lia|]. split; [|by constructor].
      intros h ->. specialize (Hhi' (pred h) eq_refl). destruct h; [done | cbn in Hhi'; lia].
  - revert lo hi pre. induction m as [|c m IH]; intros lo hi pre (Hlo & Hhi & Hall).
    + cbn in Hlo. replace lo with 0%nat by lia. constructor.
    + apply Forall_cons in Hall as [Hc Hall].
      change (c :: m) with ([c] ++ m). constructor; [| done | by constructor |].
      * intros ->. specialize (Hhi 0%nat eq_refl). cbn in Hhi. lia.
      * apply IH. split; [cbn in Hlo; lia|]. split; [|done].
        intros h Hh. destruct hi as [h0|]; [|done]. injection Hh as <-.
        specialize (Hhi h0 eq_refl). cbn in Hhi. lia.
Qed.

Lemma matches_digits (pre m post : text) :
  Matches (rplus (RClass CDigit)) pre m post <-> digits m.
Proof.
  unfold rplus, digits. rewrite matches_rep_class. split.
  - intros (Hlo & _ & Hall). split; [by destruct m; [cbn in Hlo; lia|] | done].
  - intros [Hne Hall]. split; [destruct m; [done | cbn; lia]|]. by split.
Qed.

Lemma matches_blanks (pre m post : text) :
  Matches (rplus (RClass CSpace)) pre m post <-> blanks m.
Proof.
  unfold rplus, blanks. rewrite matches_rep_class. split.
  - intros (Hlo & _ & Hall). split; [by destruct m; [cbn in Hlo; lia|] | done].
  - intros [Hne Hall]. split; [destruct m; [done | cbn; lia]|]. by split.
Qed.

Lemma matches_comma_group (pre m post : text) :
  Matches (RSeq (RChar ",") (rtimes (RClass CDigit) 3 3)) pre m post
  <-> exists a b c,
        m = [","%char; a; b; c]
        /\ is_digit a = true /\ is_digit b = true /\ is_digit c = true.
Proof.
  rewrite matches_seq. split.
  - intros (m1 & m2 & -> & H1 & H2). apply matches_char in H1 as ->.
    apply matches_rep_class in H2 as (Hlo & Hhi & Hall).
    specialize (Hhi 3%nat eq_refl).
    destruct m2 as [|a [|b [|c [|d m2]]]]; cbn in Hlo, Hhi; try lia.
    apply Forall_cons in Hall as [Ha Hall]. apply Forall_cons in Hall as [Hb Hall].
    apply Forall_cons in Hall as [Hc _]. by exists a, b, c.
  - intros (a & b & c & -> & Ha & Hb & Hc). exists [","%char], [a; b; c].
    split; [done|]. split; [constructor|]. apply matches_rep_class.
    split; [cbn; lia|]. split; [intros h [= <-]; cbn; lia|]. by repeat constructor.
Qed.

Lemma matches_thousands_groups (pre m post : text) :
  Matches thousands_groups pre m post <-> comma_groups m.
Proof.
  unfold thousands_groups, rstar. split.
  - intros HM.
    remember (RRep (RSeq (RChar ",") (rtimes (RClass CDigit) 3 3)) 0 None) as rr eqn:E.
    revert E.
    induction HM as [| | | | r0 hi0 pre post | r0 lo0 hi0 pre m1 m2 post Hhi Hne H1 _ H2 IH2 | |];
      intros E; simplify_eq.
    + constructor.
    + apply matches_comma_group in H1 as (a & b & c & -> & Ha & Hb & Hc).
      cbn [app]. constructor; [done..|]. by apply IH2.
  - intros Hg. revert pre. induction Hg as [|a b c t Ha Hb Hc Hg IH]; intros pre.
    + constructor.
    + change (","%char :: a :: b :: c :: t) with ([","%char; a; b; c] ++ t).
      apply (M_rep_more _ 0 None); [done | done | | apply IH].
      apply matches_comma_group. by exists a, b, c.
Qed.

Lemma matches_decimals (pre m post : text) :
  Matches (ropt (RSeq (RChar ".") (rtimes (RClass CDigit) 1 2))) pre m post
  <-> decimals m.
Proof.
  unfold ropt, decimals. split.
  - intros HM. inversion HM; subst; [by left|]. right.
    match goal with
    | H : Matches (RRep _ _ _) _ _ _ |- _ => cbn in H; inversion H; subst; [|done]
    end.
    match goal with
    | H : Matches (RSeq _ _) _ _ _ |- _ =>
        apply matches_seq in H as (x & d & -> & Hx & Hd)
    end.
    apply matches_char in Hx as ->.
    apply matches_rep_class in Hd as (Hlo & Hhi' & Hall).
    exists d. rewrite app_nil_r. split; [done|]. split.
    + split; [by destruct d; [cbn in Hlo; lia|] | done].
    + by apply Hhi'.
  - intros [->|(d & -> & [Hne Hall] & Hlen)]; [constructor|].
    rewrite <- (app_nil_r ("."%char :: d)).
    apply (M_rep_more _ 0 (Some 1%nat)); [done | done | | constructor].
    apply matches_seq. exists ["."%char], d. split; [done|]. split; [constructor|].
    apply matches_rep_class. split; [destruct d; [done | cbn; lia]|].
    split; [by intros h [= <-] | done].
Qed.

Lemma matches_dollar_sign_pattern (pre m post : text) :
  Matches dollar_sign_pattern pre m post
  <-> exists n f, m = "$"%char :: n ++ f /\ integer_sep n /\ decimals f.
Proof.
  unfold dollar_sign_pattern, rseq. cbn [foldr]. split.
  - intros HM.
    apply matches_seq in HM as (m1 & r1 & -> & H1 & HM).
    apply matches_seq in HM as (m2 & r2 & -> & H2 & HM).
    apply matches_seq in HM as (m3 & r3 & -> & H3 & HM).
    apply matches_seq in HM as (m4 & r4 & -> & H4 & HM).
    apply matches_eps in HM as ->. apply matches_char in H1 as ->.
    apply matches_digits in H2. apply matches_thousands_groups in H3.
    apply matches_decimals in H4.
    exists (m2 ++ m3), m4. rewrite app_nil_r, <- app_assoc.
    split; [done|]. split; [by exists m2, m3 | done].
  - intros (n & f & -> & (d & g & -> & Hd & Hg) & Hf).
    apply matches_seq. exists ["$"%char], ((d ++ g) ++ f). split; [done|].
    split; [constructor|].
    apply matches_seq. exists d, (g ++ f). split; [by rewrite app_assoc|].
    split; [by apply matches_digits|].
    apply matches_seq. exists g, f. split; [done|].
    split; [by apply matches_thousands_groups|].
    apply matches_seq. exists f, []. split; [by rewrite app_nil_r|].
    split; [by apply matches_decimals | constructor].
Qed.

Lemma digit_is_word (c : ascii) : is_digit c = true -> is_word c = true.
Proof. unfold is_digit, is_word. by intros ->. Qed.

Lemma digits_start_word (n rest : text) : digits n -> starts_word (n ++ rest) = true.
Proof.
  intros [Hne Hall]. destruct n as [|c n]; [done|].
  apply Forall_cons in Hall as [Hc _]. by apply digit_is_word.
Qed.

Lemma ends_word_app (a u : text) : ends_word u = true -> ends_word (a ++ u) = true.
Proof.
  unfold ends_word. rewrite last_app. by destruct (last u).
Qed.

Lemma xorb_true_l_false (a b : bool) : b = true -> xorb a b = true <-> a = false.
Proof. intros ->. by destruct a. Qed.

Lemma xorb_true_r_false (a b : bool) : a = true -> xorb a b = true <-> b = false.
Proof. intros ->. by destruct b. Qed.

Lemma matches_amount_pattern (u pre m post : text) :
  ends_word u = true ->
  Matches (amount_pattern u) pre m post
  <-> exists n b,
        m = n ++ b ++ u /\ integer_sep n /\ blanks b
        /\ ends_word pre = false /\ starts_word post = false.
Proof.
  intros Hu. unfold amount_pattern, rseq. cbn [foldr]. split.
  - intros HM.
    apply matches_seq in HM as (m0 & r0 & -> & H0 & HM).
    apply matches_seq in HM as (d & r1 & -> & Hd & HM).
    apply matches_seq in HM as (g & r2 & -> & Hg & HM).
    apply matches_seq in HM as (b & r3 & -> & Hb & HM).
    apply matches_seq in HM as (u' & r4 & -> & Hu' & HM).
    apply matches_seq in HM as (e & r5 & -> & He & HM).
    apply matches_eps in HM as ->. apply matches_rlit in Hu' as ->.
    apply matches_wordb in H0 as [-> H0]. apply matches_wordb in He as [-> He].
    apply matches_digits in Hd. apply matches_thousands_groups in Hg.
    apply matches_blanks in Hb. cbn [app] in *.
    rewrite <- app_assoc in H0.
    rewrite (xorb_true_l_false _ _ (digits_start_word d _ Hd)) in H0.
    rewrite (xorb_true_r_false _ _ (ends_word_app _ u Hu)) in He.
    exists (d ++ g), b. rewrite !app_nil_r, <- !app_assoc.
    split; [done|]. split; [by exists d, g | done].
  - intros (n & b & -> & (d & g & -> & Hd & Hg) & Hb & Hpre & Hpost).
    apply matches_seq. exists [], ((d ++ g) ++ b ++ u). split; [done|]. split.
    { apply matches_wordb. split; [done|]. rewrite <- !app_assoc.
      by apply (xorb_true_l_false _ _ (digits_start_word d _ Hd)). }
    rewrite app_nil_r.
    apply matches_seq. exists d, (g ++ b ++ u). split; [by rewrite <- app_assoc|].
    split; [by apply matches_digits|].
    apply matches_seq. exists g, (b ++ u). split; [done|].
    split; [by apply matches_thousands_groups|].
    apply matches_seq. exists b, u. split; [done|].
    split; [by apply matches_blanks|].
    apply matches_seq. exists u, []. split; [by rewrite app_nil_r|].
    split; [by apply matches_rlit|].
    apply matches_seq. exists [], []. split; [done|].
    split; [|constructor].
    apply matches_wordb. split; [done|]. cbn [app].
    by apply (xorb_true_r_false _ _ (ends_word_app _ u Hu)).
Qed.

Lemma search_dollar_sign_pattern (t : text) :
  is_Some (search dollar_sign_pattern t) <-> has_dollar_amount t.
Proof.
  rewrite search_spec. unfold has_dollar_amount. split.
  - intros (pre & m & post & -> & HM).
    apply matches_dollar_sign_pattern in HM as (n & f & -> & Hn & Hf).
    exists pre, n, f, post. by cbn [app]; rewrite <- ?app_assoc.
  - intros (pre & n & f & post & -> & Hn & Hf).
    exists pre, ("$"%char :: n ++ f), post. split; [by cbn [app]; rewrite <- ?app_assoc|].
    apply matches_dollar_sign_pattern. by exists n, f.
Qed.

Lemma search_amount_pattern (u t : text) :
  ends_word u = true ->
  is_Some (search (amount_pattern u) t) <-> has_amount_in integer_sep u t.
Proof.
  intros Hu. rewrite search_spec. unfold has_amount_in. split.
  - intros (pre & m & post & -> & HM).
    apply (matches_amount_pattern u _ _ _ Hu) in HM
      as (n & b & -> & Hn & Hb & Hpre & Hpost).
    exists pre, n, b, post. by cbn [app]; rewrite <- ?app_assoc.
  - intros (pre & n & b & post & -> & Hn & Hb & Hpre & Hpost).
    exists pre, (n ++ b ++ u), post. split; [by cbn [app]; rewrite <- ?app_assoc|].
    apply (matches_amount_pattern u _ _ _ Hu). by exists n, b.
Qed.

(** The last group of an integer with separators is an integer after a
    comma, so the separators make no difference to what is found. *)
Lemma comma_groups_last (g : text) :
  comma_groups g ->
  g = [] \/ exists g' a b c,
              g = g' ++ [","%char; a; b; c]
              /\ is_digit a = true /\ is_digit b = true /\ is_digit c = true.
Proof.
  induction 1 as [|a b c t Ha Hb Hc Ht IH]; [by left|]. right.
  destruct IH as [->|(g' & x & y & z & -> & Hx & Hy & Hz)].
  - by exists [], a, b, c.
  - by exists (","%char :: a :: b :: c :: g'), x, y, z.
Qed.

Lemma has_amount_in_plain (u t : text) :
  has_amount_in integer_sep u t <-> has_amount_in digits u t.
Proof.
  unfold has_amount_in. split.
  - intros (pre & n & b & post & -> & (d & g & -> & Hd & Hg) & Hb & Hpre & Hpost).
    destruct (comma_groups_last g Hg) as [->|(g' & x & y & z & -> & Hx & Hy & Hz)].
    + exists pre, d, b, post. by rewrite app_nil_r.
    + exists (pre ++ d ++ g' ++ [","%char]), [x; y; z], b, post.
      split; [by rewrite <- !app_assoc|].
      split; [split; [done | by repeat constructor]|].
      split; [done|]. split; [|done].
      unfold ends_word. by rewrite !app_assoc, last_snoc.
  - intros (pre & n & b & post & -> & Hn & Hb & Hpre & Hpost).
    exists pre, n, b, post. split; [done|]. split; [|done].
    exists n, []. rewrite app_nil_r. split; [done|]. split; [done | constructor].
Qed.

(** * The claims *)

(** C1 (defect in the code).  The footer "Last update 31 Dec 2023" gives
    no date: the date loop returns after its first pattern, "Published On",
    whatever the outcome, so the result is always the date read after
    "Published On".  The second pattern does match that footer, and its
    group is a date [strptime] accepts, 2023-12-31. *)
Theorem convert_never_tries_last_update (w : World) :
  fst (convert_string_to_datetime (lit "Last update 31 Dec 2023") w) = Ok None
  /\ (group1 (lit "Last update 31 Dec 2023")
        <$> search (RSeq (rlit (lit "Last update ")) date_group)
                   (lit "Last update 31 Dec 2023"))
     = Some (lit "31 Dec 2023")
  /\ strptime (lit "31 Dec 2023") = Some {| year := 2023; month := 12; day := 31 |}
  /\ forall footer : text,
       fst (convert_string_to_datetime footer w) = Ok (footer_date footer).
Proof.
  split; [by vm_compute|]. split; [by vm_compute|]. split; [by vm_compute|].
  intros footer.
  by destruct (convert_string_to_datetime_spec footer w) as (w' & -> & _).
Qed.

(** C2.  Extraction returns the records of the handles that come before
    the first handle whose parsed month is below the limit, in their
    order, whatever follows that handle; handles without a date (and
    handles that cannot be read) give no record and do not stop it. *)
Theorem extraction_keeps_recent_prefix (self : MainScrapper)
    (pre post : list WebElement) (w : World)
    (Hpre : Forall (fun e => too_old self e = false) pre)
    (Hpost : match post with [] => True | e :: _ => too_old self e = true end) :
  fst (process_news_payload self (pre ++ post) w)
  = Ok (records_from self (http w) 0 pre).
Proof.
  unfold process_news_payload.
  by destruct (process_loop_spec self pre post Hpre Hpost 0%nat [] w) as (w' & -> & _).
Qed.

Lemma extraction_keeps_recent_prefix_witness :
  Forall (fun e => too_old (sample_scrapper 3) e = false)
         [gaza_article; updated_article; untitled_article; plain_article]
  /\ too_old (sample_scrapper 3) january_article = true
  /\ fst (process_news_payload (sample_scrapper 3)
            ([gaza_article; updated_article; untitled_article; plain_article]
             ++ [january_article; gaza_article])
            (sample_world (answers 200)))
     = Ok (records_from (sample_scrapper 3) (answers 200) 0
             [gaza_article; updated_article; untitled_article; plain_article]).
Proof.
  assert (H1 : Forall (fun e => too_old (sample_scrapper 3) e = false)
                 [gaza_article; updated_article; untitled_article; plain_article])
    by (repeat constructor; vm_compute; reflexivity).
  assert (H2 : too_old (sample_scrapper 3) january_article = true)
    by (vm_compute; reflexivity).
  split; [exact H1|]. split; [exact H2|].
  exact (extraction_keeps_recent_prefix (sample_scrapper 3)
           [gaza_article; updated_article; untitled_article; plain_article]
           [january_article; gaza_article] (sample_world (answers 200)) H1 H2).
Defined.

(** C3, as stated, fails: when the request itself fails (a timeout),
    [get_news_image] raises and extraction gives no record for the
    handle; and status 204, a success, gives "Unavailable". *)
Lemma image_fetch_timeout_raises :
  fst (get_news_image (sample_scrapper 1) (Some (lit "https://example.org/a.jpg")) 0
         (sample_world no_answer))
  = Raise RequestException
  /\ fst (process_news_payload (sample_scrapper 1) [gaza_article]
            (sample_world no_answer))
     = Ok []
  /\ fst (get_news_image (sample_scrapper 1) (Some (lit "https://example.org/a.jpg")) 0
            (sample_world (answers 204)))
     = Ok (lit "Unavailable").
Proof. by vm_compute. Qed.

(** C3, amended.  When the request is answered, [get_news_image] returns
    without raising: with status 200 it writes the bytes to
    output/imgs/img_<index>.png and returns img_<index>.png, with any other
    status it logs a warning and returns "Unavailable"; the record of the
    handle carries that name.  When the request is not answered, the
    exception leaves [get_news_image] and the handle gives no record. *)
Theorem image_fetch_outcomes (self : MainScrapper) (src : option text)
    (idx : nat) (w : World) :
  match src ≫= http w with
  | Some resp =>
      exists w',
        get_news_image self src idx w
        = (Ok (if status_code resp =? 200
               then lit "img_" ++ decimal idx ++ lit ".png"
               else lit "Unavailable"), w')
        /\ (if status_code resp =? 200
            then files w' !! (lit "output/imgs/" ++ lit "img_" ++ decimal idx ++ lit ".png")
                 = Some (content resp)
            else last (log w')
                 = Some (WARNING, ImageFetchFailed (status_code resp) (content resp)))
        /\ forall element r,
             el_image element = Some src ->
             build_record self (http w) idx element = Some r ->
             dict_get (lit "img_file_name") r
             = Some (VStr (if status_code resp =? 200
                           then lit "img_" ++ decimal idx ++ lit ".png"
                           else lit "Unavailable"))
  | None =>
      fst (get_news_image self src idx w) = Raise RequestException
      /\ forall element,
           el_image element = Some src ->
           build_record self (http w) idx element = None
  end.
Proof.
  destruct (src ≫= http w) as [resp|] eqn:Hresp.
  - destruct src as [url|]; [|done]. cbn in Hresp.
    destruct (get_news_image_answered self url idx w resp Hresp) as (w' & -> & _ & Hw').
    exists w'. split; [done|]. split.
    + destruct (status_code resp =? 200); tauto.
    + intros element r Himg Hr.
      apply build_record_fields in Hr
        as (? & ? & ? & url' & resp' & _ & _ & _ & Himg' & Hget & _ & _ & _ & _ & ->).
      rewrite Himg in Himg'. injection Himg' as <-.
      rewrite Hresp in Hget. by injection Hget as <-.
  - destruct (get_news_image_unanswered self src idx w Hresp) as (w' & -> & _).
    split; [done|]. intros element Himg.
    destruct (build_record self (http w) idx element) as [r|] eqn:Hr; [|done].
    apply build_record_fields in Hr
      as (? & ? & ? & url' & resp' & _ & _ & _ & Himg' & Hget & _).
    rewrite Himg in Himg'. injection Himg' as ->. cbn in Hresp. congruence.
Qed.

(** C4, as stated, fails: a description without "..." is kept whole, the
    article gets its record and no warning is logged. *)
Lemma description_without_ellipsis_is_kept :
  (forall a b, lit "No ellipsis here" <> a ++ lit "..." ++ b)
  /\ (let out := process_news_payload (sample_scrapper 1) [plain_article]
                   (sample_world (answers 200)) in
      (dict_get (lit "description") <$> match fst out with Ok p => p | _ => [] end)
      = [Some (VStr (lit "No ellipsis here"))]
      /\ Forall (fun entry => fst entry = INFO) (log (snd out))).
Proof.
  split.
  - apply str_find_none. by vm_compute.
  - vm_compute. split; [done|]. by repeat constructor.
Qed.

(** C4, amended.  Taking the segment at index [len - 2] never fails.  When
    the rendered description contains "...", there are at least two
    segments and the description is the second-to-last one, trimmed; when
    it does not, the only segment is the whole text (index -1) and the
    description is the whole text, trimmed.  This is the description the
    record of the handle carries. *)
Theorem description_is_segment_before_last (rendered : text) (w : World) :
  let segments := str_split (lit "...") rendered in
  (exists seg,
      index segments (Z.of_nat (length segments) - 2) w = (Ok seg, w)
      /\ segments !! (length segments - 2)%nat = Some seg
      /\ summary rendered = str_strip seg)
  /\ ((exists a b, rendered = a ++ lit "..." ++ b) -> (2 <= length segments)%nat)
  /\ ((forall a b, rendered <> a ++ lit "..." ++ b) ->
      segments = [rendered] /\ summary rendered = str_strip rendered)
  /\ forall self get i element r,
       el_description element = Some rendered ->
       build_record self get i element = Some r ->
       dict_get (lit "description") r = Some (VStr (summary rendered)).
Proof.
  intros segments. split; [|split; [|split]].
  - assert (Hlen : (1 <= length segments)%nat) by apply str_split_loop_length.
    destruct (segments !! (length segments - 2)%nat) as [seg|] eqn:Hseg.
    + exists seg. split; [|split; [done|]].
      * unfold segments. rewrite index_last_but_one. fold segments. by rewrite Hseg.
      * unfold summary. fold segments. by rewrite Hseg.
    + apply lookup_ge_None in Hseg. lia.
  - intros (a & b & Hs). by eapply str_split_with_sep.
  - intros Hno. pose proof (str_split_no_sep (lit "...") rendered Hno) as Hs.
    split; [done|]. unfold summary. by rewrite Hs.
  - intros self get i element r Hd Hr.
    apply build_record_fields in Hr as (? & ? & ? & ? & ? & _ & Hd' & _ & _ & _ & _ & _ & -> & _).
    congruence.
Qed.

(** C6.  Extraction always returns a payload: it neither raises nor runs
    on.  When the work on one handle raises, the exception is logged as a
    warning and the loop goes on with the next handle and the payload
    as it was. *)
Theorem extraction_never_raises (self : MainScrapper)
    (news_list : list WebElement) (w : World) :
  (exists payload w', process_news_payload self news_list w = (Ok payload, w'))
  /\ forall (i : nat) (element : WebElement) (rest : list WebElement)
            (payload : list dict),
       match process_element self i element payload w with
       | (Raise error, w') =>
           process_loop self i (element :: rest) payload w
           = process_loop self (S i) rest payload
               (snd (logging WARNING (ElementError error) w'))
       | _ => True
       end.
Proof.
  split; [apply process_loop_total|].
  intros i element rest payload.
  destruct (process_element self i element payload w) as [[| error |] w'] eqn:E; [done| |done].
  rewrite process_loop_unfold. unfold try_except. by rewrite E.
Qed.

(** C7.  In every record of the payload, search_term_occurrence is the
    number of occurrences of the search phrase in the record's title plus
    the number in its description, counted as [str.count] does (literal,
    case-sensitive, left to right without overlap); for a phrase that
    cannot overlap itself, such as "Gaza", that is the number of positions
    where the phrase occurs.  For the phrase "Gaza", the title "Gaza
    under fire" and the description "Situation in Gaza worsens, Gaza
    residents flee" it is 1 + 2 = 3. *)
Theorem occurrence_field_counts_phrase (self : MainScrapper)
    (news_list : list WebElement) (w : World) :
  (exists payload,
      fst (process_news_payload self news_list w) = Ok payload
      /\ Forall (fun r =>
                   exists phrase title description,
                     search_phrase self = Some phrase
                     /\ dict_get (lit "title") r = Some (VStr title)
                     /\ dict_get (lit "description") r = Some (VStr description)
                     /\ dict_get (lit "search_term_occurrence") r
                        = Some (VInt (Z.of_nat (str_count phrase title
                                                + str_count phrase description)))
                     /\ (unbordered phrase = true -> phrase <> [] ->
                         str_count phrase title = occurrences phrase title
                         /\ str_count phrase description
                            = occurrences phrase description))
                payload)
  /\ unbordered (lit "Gaza") = true
  /\ str_count (lit "Gaza") (lit "Gaza under fire") = 1%nat
  /\ str_count (lit "Gaza") (lit "Situation in Gaza worsens, Gaza residents flee") = 2%nat
  /\ (dict_get (lit "search_term_occurrence")
        <$> match fst (process_news_payload (sample_scrapper 1) [gaza_article]
                         (sample_world (answers 200))) with
            | Ok p => p
            | _ => []
            end)
     = [Some (VInt 3)].
Proof.
  split; [|by vm_compute].
  destruct (first_too_old self news_list) as (pre & post & -> & Hpre & Hpost).
  unfold process_news_payload.
  destruct (process_loop_spec self pre post Hpre Hpost 0%nat [] w) as (w' & -> & _).
  eexists. split; [done|]. cbn [app].
  apply records_from_Forall. intros i e r Hr.
  apply build_record_fields in Hr
    as (title & rendered & phrase & ? & ? & _ & _ & Hp & _ & _ & _ & Ht & Hd & Hc & _).
  exists phrase, title, (summary rendered).
  repeat (split; [done|]). intros Hu Hne.
  by rewrite !str_count_occurrences.
Qed.

(** C10.  With a month limit of at most 1 no date is below the limit:
    extraction goes through the whole list, no handle is too old, and
    every handle whose parts can be read, whose date parses and whose
    image request is answered has its record in the payload.  The limit
    is at most 1 as soon as number_of_months - 1 reaches the current
    month. *)
Theorem no_early_stop_when_limit_at_most_one (self : MainScrapper)
    (news_list : list WebElement) (w : World)
    (Hlimit : month_limit self <= 1) :
  fst (process_news_payload self news_list w)
  = Ok (records_from self (http w) 0 news_list)
  /\ Forall (fun e => too_old self e = false) news_list
  /\ (forall k e r,
        news_list !! k = Some e ->
        build_record self (http w) k e = Some r ->
        r ∈ records_from self (http w) 0 news_list)
  /\ forall now number_of_months : Z,
       now <= number_of_months - 1 ->
       init_month_limit now number_of_months <= 1.
Proof.
  assert (Hall : Forall (fun e => too_old self e = false) news_list).
  { apply Forall_forall. intros e _. by apply never_too_old. }
  split; [|split; [done|split]].
  - unfold process_news_payload.
    destruct (process_loop_spec self news_list [] Hall I 0%nat [] w) as (w' & Hrun & _).
    rewrite app_nil_r in Hrun. by rewrite Hrun.
  - intros k e r Hk Hr. by apply (records_from_elem self (http w) news_list 0 k e r).
  - intros now n Hn. unfold init_month_limit. lia.
Qed.

Lemma no_early_stop_when_limit_at_most_one_witness :
  month_limit (sample_scrapper 1) <= 1
  /\ fst (process_news_payload (sample_scrapper 1)
            [gaza_article; january_article; plain_article]
            (sample_world (answers 200)))
     = Ok (records_from (sample_scrapper 1) (answers 200) 0
             [gaza_article; january_article; plain_article]).
Proof.
  assert (H : month_limit (sample_scrapper 1) <= 1) by (cbn; lia).
  split; [exact H|].
  exact (proj1 (no_early_stop_when_limit_at_most_one (sample_scrapper 1)
                  [gaza_article; january_article; plain_article]
                  (sample_world (answers 200)) H)).
Defined.



(** C9.  Whatever the outcome of the [try] block of [scrape] (search,
    wait for the sort control, collect and extract, write): when it ends
    normally, [scrape] ends normally with all browser sessions closed; when
    it raises, [scrape] logs the error, closes the sessions and raises the
    generic exception that wraps the error, so the caller never sees a
    success.  An exception of any of the phases is an exception of the
    block. *)
Theorem scrape_closes_and_reraises `{Browser} (self : MainScrapper)
    (fuel : nat) (w : World) :
  match scrape_body self fuel w with
  | (Ok _, w1) =>
      scrape self fuel w = (Ok tt, snd (close_all_browsers w1))
  | (Raise error, w1) =>
      exists w',
        scrape self fuel w = (Raise (PlainException error), w')
        /\ sessions w' = 0%nat
        /\ log w' = log w1 ++ [(ERROR, ScrapeError error)]
  | (Diverge, w1) => scrape self fuel w = (Diverge, w1)
  end
  /\ match scrape self fuel w with
     | (Diverge, _) => True
     | (_, w') => sessions w' = 0%nat
     end
  /\ match search_news self w with
     | (Raise error, w1) => scrape_body self fuel w = (Raise error, w1)
     | (Diverge, _) => True
     | (Ok _, w1) =>
         match wait_until_located (ById "search-sort-option") 2 w1 with
         | (Raise error, w2) => scrape_body self fuel w = (Raise error, w2)
         | (Diverge, _) => True
         | (Ok _, w2) =>
             match get_news_list_by_date fuel w2 with
             | (Raise error, w3) => scrape_body self fuel w = (Raise error, w3)
             | (Diverge, _) => True
             | (Ok news_list, w3) =>
                 match process_news_payload self news_list w3 with
                 | (Ok payload, w4) =>
                     scrape_body self fuel w = save_payload_to_excel payload w4
                 | _ => False
                 end
             end
         end
     end.
Proof.
  assert (Hbody : match scrape_body self fuel w with
                  | (Ok _, w1) =>
                      scrape self fuel w = (Ok tt, snd (close_all_browsers w1))
                  | (Raise error, w1) =>
                      exists w',
                        scrape self fuel w = (Raise (PlainException error), w')
                        /\ sessions w' = 0%nat
                        /\ log w' = log w1 ++ [(ERROR, ScrapeError error)]
                  | (Diverge, w1) => scrape self fuel w = (Diverge, w1)
                  end).
  { unfold scrape, try_finally, try_except.
    destruct (scrape_body self fuel w) as [[[]| error |] w1]; cbn; [done| |done].
    eexists. split; [done|]. by split. }
  split; [exact Hbody|]. split.
  - destruct (scrape_body self fuel w) as [[[]| error |] w1].
    + by rewrite Hbody.
    + by destruct Hbody as (w' & -> & Hs & _).
    + by rewrite Hbody.
  - destruct (search_news self w) as [[[]| error |] w1] eqn:E1;
      [|by unfold scrape_body, bind; rewrite E1|done].
    destruct (wait_until_located _ _ w1) as [[[]| error |] w2] eqn:E2;
      [|by unfold scrape_body, bind; rewrite E1, E2|done].
    destruct (get_news_list_by_date fuel w2) as [[news_list| error |] w3] eqn:E3;
      [|by unfold scrape_body, bind; rewrite E1, E2, E3|done].
    destruct (extraction_helper self news_list w3) as (payload & w4 & E4).
    rewrite E4. unfold scrape_body, bind. by rewrite E1, E2, E3, E4.
Qed.

(** C5, as stated, fails: "5USD" holds an integer followed by the literal
    "USD", "5 USDT" holds an integer, a blank and the literal "USD", and
    "x5 dollars" holds an integer followed by the word "dollars"; the
    function answers false for each. *)
Lemma contains_money_needs_blank_and_word_edges :
  contains_money (lit "5USD") = false
  /\ (exists pre n post,
         lit "5USD" = pre ++ n ++ lit "USD" ++ post /\ digits n)
  /\ contains_money (lit "5 USDT") = false
  /\ (exists pre n b post,
         lit "5 USDT" = pre ++ n ++ b ++ lit "USD" ++ post /\ digits n /\ blanks b)
  /\ contains_money (lit "x5 dollars") = false
  /\ (exists pre n b post,
         lit "x5 dollars" = pre ++ n ++ b ++ lit "dollars" ++ post
         /\ integer_sep n /\ blanks b).
Proof.
  assert (H5 : digits (lit "5")) by (split; [done | by repeat constructor]).
  assert (Hb : blanks (lit " ")) by (split; [done | by repeat constructor]).
  split; [by vm_compute|]. split; [by exists [], (lit "5"), []|].
  split; [by vm_compute|]. split; [by exists [], (lit "5"), (lit " "), (lit "T")|].
  split; [by vm_compute|].
  exists (lit "x"), (lit "5"), (lit " "), []. split; [done|]. split; [|done].
  exists (lit "5"), []. split; [done|]. split; [done | constructor].
Qed.

(** C5, amended.  [contains_money] answers true exactly when the text
    holds a dollar sign directly followed by an integer with optional
    thousands separators and up to two decimal places, or an integer with
    optional thousands separators, one or more blanks and "dollars", or an
    integer, one or more blanks and "USD" (in this case), where the number
    does not continue a word and the unit is not continued by a word
    character.  The patterns are tried in this order and the first that
    is found decides. *)
Theorem contains_money_iff (t : text) :
  (contains_money t = true
   <-> has_dollar_amount t
       \/ has_amount_in integer_sep (lit "dollars") t
       \/ has_amount_in digits (lit "USD") t)
  /\ contains_money t
     = match search dollar_sign_pattern t with
       | Some _ => true
       | None =>
           match search (amount_pattern (lit "dollars")) t with
           | Some _ => true
           | None =>
               match search (amount_pattern (lit "USD")) t with
               | Some _ => true
               | None => false
               end
           end
       end
  /\ contains_money (lit "Aid package worth $2,500.00 approved") = true
  /\ contains_money (lit "Report covers 1,000 dollars in losses") = true
  /\ contains_money (lit "No monetary figures here") = false.
Proof.
  split; [|split; [reflexivity | by vm_compute]].
  rewrite <- search_dollar_sign_pattern.
  rewrite <- (search_amount_pattern (lit "dollars")) by done.
  rewrite <- has_amount_in_plain.
  rewrite <- (search_amount_pattern (lit "USD")) by done.
  unfold contains_money, money_patterns. cbn [any_pattern].
  destruct (search dollar_sign_pattern t);
    destruct (search (amount_pattern (lit "dollars")) t);
    destruct (search (amount_pattern (lit "USD")) t);
    split; intros H; try done; eauto;
    destruct H as [[? [=]]|[[? [=]]|[? [=]]]].
Qed.

(** * Further properties of the scraper *)

(** ** Dates *)

Lemma strptime_make_date (t : text) (d : datetime) :
  strptime t = Some d -> make_date (year d) (month d) (day d) = Some d.
Proof.
  unfold strptime. intros H.
  destruct (parse_day t) as [[dd t1]|]; [|done]. cbn in H.
  destruct (parse_blank t1) as [t2|]; [|done]. cbn in H.
  destruct (parse_month t2) as [[m t3]|]; [|done]. cbn in H.
  destruct (parse_blank t3) as [t4|]; [|done]. cbn in H.
  destruct (parse_year t4) as [[y t5]|]; [|done]. cbn in H.
  destruct t5; [|done].
  assert (Hd : d = {| year := y; month := m; day := dd |}).
  { unfold make_date in H. destruct (_ && _) in H; [by injection H | done]. }
  subst d. exact H.
Qed.

Lemma make_date_bounds (y m d : Z) (dt : datetime) :
  make_date y m d = Some dt ->
  1 <= year dt <= 9999 /\ 1 <= month dt <= 12
  /\ 1 <= day dt <= days_in_month (year dt) (month dt).
Proof.
  unfold make_date. destruct (_ && _) eqn:E; [|done]. intros [= <-]. cbn.
  repeat (apply andb_true_iff in E as [E ?]). lia.
Qed.

Lemma parse_day_pad2 (n : nat) (rest : text) :
  (1 <= n <= 31)%nat ->
  parse_day (pad2 (Z.of_nat n) ++ rest) = Some (Z.of_nat n, rest).
Proof.
  intros Hn.
  do 32 (destruct n as [|n]; [try lia; by vm_compute|]). lia.
Qed.

Lemma parse_month_abbr (n : nat) (rest : text) :
  (1 <= n <= 12)%nat ->
  exists name,
    month_abbr !! (n - 1)%nat = Some name
    /\ parse_blank (" "%char :: name ++ rest) = Some (name ++ rest)
    /\ parse_month (name ++ rest) = Some (Z.of_nat n, rest).
Proof.
  intros Hn.
  do 13 (destruct n as [|n];
         [try lia;
          match goal with
          | |- exists name, month_abbr !! ?i = _ /\ _ =>
              exists (default [] (month_abbr !! i)); by vm_compute
          end|]).
  lia.
Qed.

Lemma to_little_uint_add (a b : nat) (acc : Decimal.uint) :
  Nat.to_little_uint (b + a) acc = Nat.to_little_uint a (Nat.to_little_uint b acc).
Proof.
  revert acc. induction b as [|b IH]; intros acc; [done|]. cbn. apply IH.
Qed.

Lemma years_parse_back_spec (n : nat) :
  forall (y : Z) (u : Decimal.uint) (j : nat),
    years_parse_back n y u = true ->
    (j < n)%nat ->
    exists t4,
      parse_blank (" "%char
                   :: lit (NilZero.string_of_uint
                             (Decimal.rev (Nat.to_little_uint j u))))
      = Some t4
      /\ parse_year t4 = Some (y + Z.of_nat j, []).
Proof.
  induction n as [|n IH]; intros y u j Hall Hj; [lia|].
  cbn [years_parse_back] in Hall. apply andb_true_iff in Hall as [Hhead Hrest].
  destruct j as [|j].
  - cbn [Nat.to_little_uint]. destruct (parse_blank _) as [t4|]; [|done].
    exists t4. split; [done|].
    destruct (parse_year t4) as [[v [|]]|]; [|done..].
    apply Z.eqb_eq in Hhead as ->. do 2 f_equal. lia.
  - cbn [Nat.to_little_uint].
    destruct (IH (y + 1) (Decimal.Little.succ u) j Hrest ltac:(lia)) as (t4 & H1 & H2).
    exists t4. split; [done|]. rewrite H2. do 2 f_equal. lia.
Qed.

Lemma parse_year_decimal (y : Z) :
  1000 <= y <= 9999 ->
  exists t4,
    parse_blank (" "%char :: decimal (Z.to_nat y)) = Some t4
    /\ parse_year t4 = Some (y, []).
Proof.
  intros Hy.
  assert (Hall : years_parse_back (Z.to_nat 9000) 1000
                   (Nat.to_little_uint (Z.to_nat 1000) Decimal.zero) = true)
    by (vm_compute; reflexivity).
  assert (Hj : (Z.to_nat (y - 1000) < Z.to_nat 9000)%nat) by lia.
  destruct (years_parse_back_spec _ _ _ (Z.to_nat (y - 1000)) Hall Hj)
    as (t4 & H1 & H2).
  exists t4. split.
  - rewrite <- H1. unfold decimal, Nat.to_uint.
    replace (Z.to_nat y) with (Z.to_nat 1000 + Z.to_nat (y - 1000))%nat by lia.
    by rewrite to_little_uint_add.
  - rewrite H2. do 2 f_equal. lia.
Qed.

(** Formatting a date and parsing it again gives the date back, for the
    years that are written with four digits. *)
Lemma strptime_strftime (d : datetime) :
  make_date (year d) (month d) (day d) = Some d ->
  1000 <= year d ->
  strptime (strftime d) = Some d.
Proof.
  intros Hd Hy. pose proof (make_date_bounds _ _ _ _ Hd) as (Hyear & Hmonth & Hday).
  assert (Hday' : day d <= 31).
  { unfold days_in_month in Hday.
    repeat match type of Hday with
           | context [if ?c then _ else _] => destruct c
           end; lia. }
  unfold strftime, strptime. change (lit " ") with [" "%char].
  replace (day d) with (Z.of_nat (Z.to_nat (day d))) at 1 by lia.
  rewrite parse_day_pad2 by lia. cbn [mbind option_bind].
  destruct (parse_month_abbr (Z.to_nat (month d))
              (" "%char :: decimal (Z.to_nat (year d))))
    as (name & Hname & Hblank & Hmon); [lia|].
  replace (Z.to_nat (month d - 1)) with (Z.to_nat (month d) - 1)%nat by lia.
  rewrite Hname. cbn [default app]. unfold id.
  rewrite Hblank. cbn [mbind option_bind].
  rewrite Hmon. cbn [mbind option_bind].
  destruct (parse_year_decimal (year d)) as (t4 & Hb & Hyr); [lia|].
  rewrite Hb. cbn [mbind option_bind]. rewrite Hyr. cbn [mbind option_bind].
  rewrite !Z2Nat.id by lia. exact Hd.
Qed.

(** ** Money patterns *)

Lemma has_dollar_amount_simple (t : text) :
  has_dollar_amount t
  <-> exists pre c post, t = pre ++ "$"%char :: c :: post /\ is_digit c = true.
Proof.
  unfold has_dollar_amount. split.
  - intros (pre & n & f & post & -> & (d & g & -> & [Hne Hall] & _) & _).
    destruct d as [|c d]; [done|]. apply Forall_cons in Hall as [Hc _].
    exists pre, c, ((d ++ g) ++ f ++ post). split; [|done].
    by rewrite <- !app_assoc.
  - intros (pre & c & post & -> & Hc).
    exists pre, [c], [], post. split; [done|]. split; [|by left].
    exists [c], []. split; [done|]. split; [|constructor].
    split; [done | by repeat constructor].
Qed.

Lemma contains_money_cases (t : text) :
  contains_money t = true ->
  has_dollar_amount t
  \/ has_amount_in integer_sep (lit "dollars") t
  \/ has_amount_in integer_sep (lit "USD") t.
Proof.
  unfold contains_money, money_patterns. cbn [any_pattern]. intros H.
  destruct (search dollar_sign_pattern t) eqn:E1.
  { left. apply search_dollar_sign_pattern. by rewrite E1. }
  destruct (search (amount_pattern (lit "dollars")) t) eqn:E2.
  { right. left. apply (search_amount_pattern (lit "dollars")); [done|]. by rewrite E2. }
  destruct (search (amount_pattern (lit "USD")) t) eqn:E3; [|done].
  right. right. apply (search_amount_pattern (lit "USD")); [done|]. by rewrite E3.
Qed.

(** X1.  A dollar sign directly followed by one digit is all the first
    pattern needs: the dollar-sign pattern is found exactly in the texts
    that have one, and [contains_money] is true for all of them, whatever
    separators or decimals follow. *)
Theorem dollar_sign_and_digit_suffice (t : text) :
  (is_Some (search dollar_sign_pattern t)
   <-> exists pre c post, t = pre ++ "$"%char :: c :: post /\ is_digit c = true)
  /\ ((exists pre c post, t = pre ++ "$"%char :: c :: post /\ is_digit c = true) ->
      contains_money t = true).
Proof.
  rewrite search_dollar_sign_pattern, has_dollar_amount_simple. split; [done|].
  intros H. apply has_dollar_amount_simple, search_dollar_sign_pattern in H.
  unfold contains_money, money_patterns. cbn [any_pattern].
  by destruct H as [m ->].
Qed.

Lemma digits_in (n : text) (pre post : text) :
  digits n -> Forall (fun c => is_digit c = false) (pre ++ n ++ post) -> False.
Proof.
  intros [Hne Hall] Hno. destruct n as [|c n]; [done|].
  apply Forall_cons in Hall as [Hc _].
  apply Forall_app in Hno as [_ Hno]. apply Forall_app in Hno as [Hno _].
  apply Forall_cons in Hno as [Hc' _]. congruence.
Qed.

(** X2.  A text without any digit never counts as mentioning money. *)
Theorem no_digit_no_money (t : text)
    (Hno : Forall (fun c => is_digit c = false) t) :
  contains_money t = false.
Proof.
  destruct (contains_money t) eqn:E; [|done]. exfalso.
  apply contains_money_cases in E as [H|[H|H]].
  - apply has_dollar_amount_simple in H as (pre & c & post & -> & Hc).
    apply Forall_app in Hno as [_ Hno]. apply Forall_cons in Hno as [_ Hno].
    apply Forall_cons in Hno as [Hc' _]. congruence.
  - destruct H as (pre & n & b & post & -> & (d & g & -> & Hd & _) & _).
    rewrite <- app_assoc in Hno. by eapply digits_in.
  - destruct H as (pre & n & b & post & -> & (d & g & -> & Hd & _) & _).
    rewrite <- app_assoc in Hno. by eapply digits_in.
Qed.

Lemma no_digit_no_money_witness :
  Forall (fun c => is_digit c = false) (lit "No monetary figures here")
  /\ contains_money (lit "No monetary figures here") = false.
Proof.
  assert (H : Forall (fun c => is_digit c = false) (lit "No monetary figures here"))
    by (by repeat constructor).
  split; [exact H|]. exact (no_digit_no_money _ H).
Defined.

(** ** The description *)

Lemma str_find_le (sep a b : text) :
  exists k, str_find sep (a ++ sep ++ b) = Some k /\ (k <= length a)%nat.
Proof.
  induction a as [|c a (k & Hk & Hle)]; cbn [app].
  - exists 0%nat. split; [|done].
    assert (H : starts_with sep (sep ++ b) = true) by (apply starts_with_spec; eauto).
    destruct (sep ++ b); cbn [str_find]; by rewrite H.
  - cbn [str_find]. destruct (starts_with sep (c :: a ++ sep ++ b)).
    + exists 0%nat. split; [done | lia].
    + rewrite Hk. exists (S k). split; [done | cbn; lia].
Qed.

Lemma clean_infix (sep s x a y : text) :
  str_find sep s = None -> s = x ++ a ++ y -> str_find sep a = None.
Proof.
  intros Hs ->. destruct (str_find sep a) as [j|] eqn:F; [|done].
  apply str_find_some in F as [F _]. exfalso.
  apply (str_find_none sep _ Hs (x ++ take j a) (drop (j + length sep) a ++ y)).
  rewrite F at 1. by rewrite <- !app_assoc.
Qed.

Lemma str_find_take_none (sep s : text) (j : nat) :
  sep <> [] -> str_find sep s = Some j -> str_find sep (take j s) = None.
Proof.
  intros Hsep F. destruct (str_find sep (take j s)) as [i|] eqn:G; [|done].
  apply str_find_some in G as [G Hi]. rewrite length_take in Hi.
  destruct (str_find_le sep (take i (take j s))
              (drop (i + length sep) (take j s) ++ drop j s)) as (k & Hk & Hle).
  assert (Hs : s = take i (take j s) ++ sep
                   ++ drop (i + length sep) (take j s) ++ drop j s).
  { rewrite <- (take_drop j s) at 1. rewrite G at 1. by rewrite <- !app_assoc. }
  rewrite <- Hs, F in Hk. injection Hk as <-.
  rewrite length_take, length_take in Hle.
  destruct sep; [done|]. cbn in Hi. lia.
Qed.

Lemma split_segments_clean (sep : text) (n : nat) :
  sep <> [] ->
  forall s, (length s <= n)%nat ->
    Forall (fun seg => str_find sep seg = None) (str_split_loop n sep s).
Proof.
  intros Hsep. induction n as [|n IH]; intros s Hs; cbn [str_split_loop].
  - destruct s; [|cbn in Hs; lia]. repeat constructor. by destruct sep.
  - destruct (str_find sep s) as [j|] eqn:F; [|by repeat constructor].
    constructor; [by apply str_find_take_none|].
    apply IH. rewrite length_drop.
    apply str_find_some in F as [_ F]. destruct sep; [done | cbn in F |- *; lia].
Qed.

Lemma split_segments_infix (sep : text) (n : nat) :
  forall s,
    Forall (fun seg => exists x y, s = x ++ seg ++ y) (str_split_loop n sep s).
Proof.
  induction n as [|n IH]; intros s; cbn [str_split_loop].
  - repeat constructor. exists [], []. by rewrite app_nil_r.
  - destruct (str_find sep s) as [j|] eqn:F.
    + constructor.
      * exists [], (drop j s). by rewrite take_drop.
      * eapply Forall_impl; [apply IH|]. intros seg (x & y & Hxy).
        exists (take (j + length sep) s ++ x), y.
        rewrite <- (take_drop (j + length sep) s) at 1. rewrite Hxy.
        by rewrite <- !app_assoc.
    + repeat constructor. exists [], []. by rewrite app_nil_r.
Qed.

Lemma str_lstrip_suffix (s : text) : exists x, s = x ++ str_lstrip s.
Proof.
  induction s as [|c s (x & Hx)]; [by exists []|]. cbn [str_lstrip].
  destruct (is_space c); [|by exists []].
  exists (c :: x). cbn. by f_equal.
Qed.

Lemma str_lstrip_head (s : text) (c : ascii) :
  head (str_lstrip s) = Some c -> is_space c = false.
Proof.
  induction s as [|a s IH]; [done|]. cbn [str_lstrip].
  destruct (is_space a) eqn:E; [done|]. by intros [= <-].
Qed.

Lemma str_rstrip_prefix (s : text) : exists y, s = str_rstrip s ++ y.
Proof.
  unfold str_rstrip. destruct (str_lstrip_suffix (rev s)) as (x & Hx).
  exists (rev x). rewrite <- rev_app_distr, <- Hx. by rewrite rev_involutive.
Qed.

Lemma str_rstrip_last (s : text) (c : ascii) :
  last (str_rstrip s) = Some c -> is_space c = false.
Proof.
  unfold str_rstrip. intros H. apply (str_lstrip_head (rev s)).
  destruct (str_lstrip (rev s)) as [|a l]; [done|].
  cbn [rev] in H. by rewrite last_snoc in H.
Qed.

Lemma str_strip_infix (s : text) : exists x y, s = x ++ str_strip s ++ y.
Proof.
  unfold str_strip. destruct (str_lstrip_suffix s) as (x & Hx).
  destruct (str_rstrip_prefix (str_lstrip s)) as (y & Hy).
  exists x, y. by rewrite <- Hy.
Qed.

Lemma str_strip_trimmed (s : text) (c : ascii) :
  head (str_strip s) = Some c \/ last (str_strip s) = Some c ->
  is_space c = false.
Proof.
  unfold str_strip. intros [H|H]; [|by eapply str_rstrip_last].
  destruct (str_rstrip_prefix (str_lstrip s)) as (y & Hy).
  apply (str_lstrip_head s). rewrite Hy.
  by destruct (str_rstrip (str_lstrip s)).
Qed.

(** X3.  The description of a record is a piece of the rendered text,
    has no blank at either end, and never contains an ellipsis "...". *)
Theorem description_is_clean_piece (rendered : text) :
  (exists x y, rendered = x ++ summary rendered ++ y)
  /\ (forall c,
        head (summary rendered) = Some c \/ last (summary rendered) = Some c ->
        is_space c = false)
  /\ (forall a b, summary rendered <> a ++ lit "..." ++ b).
Proof.
  unfold summary.
  set (segments := str_split (lit "...") rendered).
  assert (Hseg : exists seg x y,
             default rendered (segments !! (length segments - 2)%nat) = seg
             /\ rendered = x ++ seg ++ y
             /\ str_find (lit "...") seg = None).
  { pose proof (str_split_loop_length (length rendered) (lit "...") rendered) as Hlen.
    fold (str_split (lit "...") rendered) in Hlen. fold segments in Hlen.
    destruct (segments !! (length segments - 2)%nat) as [seg|] eqn:E;
      [|apply lookup_ge_None in E; lia].
    apply list_elem_of_lookup_2 in E.
    pose proof (split_segments_infix (lit "...") (length rendered) rendered) as Hin.
    pose proof (split_segments_clean (lit "...") (length rendered) ltac:(done)
                  rendered ltac:(done)) as Hcl.
    rewrite Forall_forall in Hin, Hcl.
    destruct (Hin seg E) as (x & y & Hxy). exists seg, x, y.
    split; [done|]. split; [done | by apply Hcl]. }
  destruct Hseg as (seg & x & y & -> & Hxy & Hclean).
  destruct (str_strip_infix seg) as (x' & y' & Hs).
  split; [|split].
  - exists (x ++ x'), (y' ++ y). rewrite Hxy. rewrite Hs at 1.
    by rewrite <- !app_assoc.
  - intros c. apply str_strip_trimmed.
  - apply str_find_none. by eapply clean_infix.
Qed.

(** ** Image files *)

Lemma decimal_inj (i j : nat) : decimal i = decimal j -> i = j.
Proof.
  unfold decimal, lit. intros H.
  apply (f_equal String.string_of_list_ascii) in H.
  rewrite !String.string_of_list_ascii_of_string in H.
  apply (f_equal NilZero.uint_of_string) in H.
  assert (Hz : forall n,
             NilZero.uint_of_string (NilZero.string_of_uint (Nat.to_uint n))
             = Some (Nat.to_uint n)).
  { intros n. apply NilZero.usu. intros En.
    pose proof (Unsigned.to_of (Nat.to_uint n)) as H1.
    rewrite Unsigned.of_to, En in H1. by cbn in H1. }
  rewrite !Hz in H. injection H as H. by apply Unsigned.to_uint_inj.
Qed.

Lemma only_adds_images_refl (w : World) : only_adds_images w w.
Proof.
  unfold only_adds_images. split; [by exists []; rewrite app_nil_r|].
  by repeat split.
Qed.

Lemma only_adds_images_trans (w1 w2 w3 : World) :
  only_adds_images w1 w2 -> only_adds_images w2 w3 -> only_adds_images w1 w3.
Proof.
  intros ([l1 H1] & Hd1 & Hf1 & Hw1 & Hh1 & Hs1) ([l2 H2] & Hd2 & Hf2 & Hw2 & Hh2 & Hs2).
  split; [exists (l1 ++ l2); by rewrite H2, H1, app_assoc|].
  split; [set_solver|]. split; [intros p Hp; by rewrite Hf2, Hf1|].
  split; [congruence|]. split; congruence.
Qed.

Lemma only_adds_images_logging (l : level) (m : message) (w : World) :
  only_adds_images w (snd (logging l m w)).
Proof. unfold only_adds_images. cbn. split; [by eexists|]. by repeat split. Qed.

Lemma image_path_prefix (idx : nat) :
  starts_with (lit "output/imgs/img_")
    (lit "output/imgs/" ++ lit "img_" ++ decimal idx ++ lit ".png") = true.
Proof. apply starts_with_spec. by exists (decimal idx ++ lit ".png"). Qed.

Lemma get_news_image_world (self : MainScrapper) (src : option text)
    (idx : nat) (w : World) :
  let out := get_news_image self src idx w in
  only_adds_images w (snd out)
  /\ img_directory self ∈ dirs (snd out)
  /\ (forall p,
        p <> lit "output/imgs/" ++ lit "img_" ++ decimal idx ++ lit ".png" ->
        files (snd out) !! p = files w !! p)
  /\ (fst out <> Ok (lit "img_" ++ decimal idx ++ lit ".png") ->
      files (snd out) = files w).
Proof.
  assert (Hins : forall (f : gmap text text) data p,
             starts_with (lit "output/imgs/img_") p = false ->
             <[lit "output/imgs/" ++ lit "img_" ++ decimal idx ++ lit ".png" := data]> f !! p
             = f !! p).
  { intros f data p Hp. apply lookup_insert_ne. intros <-.
    by rewrite image_path_prefix in Hp. }
  unfold get_news_image, bind, path_exists, only_adds_images.
  destruct (bool_decide_reflect (img_directory self ∈ dirs w)) as [Hdir|Hdir];
    cbn -[lit decimal Z.eqb starts_with];
    (destruct src as [url|]; cbn -[lit decimal Z.eqb starts_with];
     [destruct (http w url) as [resp|]; cbn -[lit decimal Z.eqb starts_with];
      [destruct (status_code resp =? 200); cbn -[lit decimal starts_with]|]|]);
    (split; [split; [(eexists; rewrite <- ?app_assoc; done)
                     || (exists []; by rewrite app_nil_r)|];
             split; [set_solver|]; split; [done || by intros; apply Hins|];
             by repeat split|]);
    (split; [set_solver|]);
    (split; [done || by intros; apply lookup_insert_ne|]);
    try done; intros Hne; by destruct Hne.
Qed.

(** ** What extraction changes *)

Lemma bind_ok {A B} (m : M A) (k : A -> M B) (w w' : World) (a : A) :
  m w = (Ok a, w') -> bind m k w = k a w'.
Proof. unfold bind. by intros ->. Qed.

Lemma bind_not_ok {A B} (m : M A) (k : A -> M B) (w : World) :
  match m w with
  | (Ok _, _) => True
  | (Raise e, w') => bind m k w = (Raise e, w')
  | (Diverge, w') => bind m k w = (Diverge, w')
  end.
Proof. unfold bind. by destruct (m w) as [[| |] ?]. Qed.

Lemma process_element_cases (self : MainScrapper) (i : nat) (element : WebElement)
    (payload : list dict) (w : World) :
  exists w1,
    (w1 = w \/ w1 = snd (logging WARNING DateParseError w))
    /\ ((exists e, process_element self i element payload w = (Raise e, w1))
        \/ (exists c, process_element self i element payload w = (Ok (payload, c), w1))
        \/ (is_Some (search_phrase self)
            /\ exists src,
                 snd (process_element self i element payload w)
                 = snd (get_news_image self src i w1))).
Proof.
  unfold process_element.
  destruct (el_title element) as [title|]; cbn [found bind ret raise];
    [|exists w; eauto].
  destruct (el_description element) as [rendered|]; cbn [found bind ret raise];
    [|exists w; eauto].
  rewrite (bind_ok _ _ _ _ _ (index_last_but_one _ _ _)).
  destruct (el_footer element) as [footer|]; cbn [found bind ret raise];
    [|exists w; eauto].
  destruct (convert_string_to_datetime_spec footer w) as (w1 & Hconv & Hw1 & Hor).
  rewrite (bind_ok _ _ _ _ _ Hconv).
  exists w1. split; [done|].
  destruct (footer_date footer) as [date|]; cbn [ret]; [|eauto].
  destruct (month_limit self <=? month date); cbn [ret]; [|eauto].
  destruct (search_phrase self) as [phrase|]; cbn [count_in bind ret raise]; [|eauto].
  destruct (el_image element) as [src|]; cbn [found bind ret raise]; [|eauto].
  right. right. split; [done|]. exists src. unfold bind.
  by destruct (get_news_image self src i w1) as [[name| |] w2].
Qed.

Lemma process_element_world (self : MainScrapper) (i : nat) (element : WebElement)
    (payload : list dict) (w : World) :
  only_adds_images w (snd (process_element self i element payload w))
  /\ (search_phrase self = None ->
      files (snd (process_element self i element payload w)) = files w
      /\ dirs (snd (process_element self i element payload w)) = dirs w
      /\ forall p c,
           fst (process_element self i element payload w) = Ok (p, c) -> p = payload).
Proof.
  destruct (process_element_cases self i element payload w)
    as (w1 & Hor & [[e ->]|[[c ->]|[Hsome [src Hsnd]]]]).
  - cbn [fst snd]. split; [|intros _; split; [|split; [|done]]];
      destruct Hor as [->| ->];
      (apply only_adds_images_refl || apply only_adds_images_logging || done).
  - cbn [fst snd]. split; [|intros _; split; [|split; [|by intros p c' [= <- <-]]]];
      destruct Hor as [->| ->];
      (apply only_adds_images_refl || apply only_adds_images_logging || done).
  - split; [|intros Hnone; rewrite Hnone in Hsome; by destruct Hsome].
    rewrite Hsnd. eapply (only_adds_images_trans w w1).
    + destruct Hor as [->| ->];
        [apply only_adds_images_refl | apply only_adds_images_logging].
    + apply get_news_image_world.
Qed.

Lemma process_loop_world (self : MainScrapper) (news_list : list WebElement) :
  forall (i : nat) (payload : list dict) (w : World),
    let out := process_loop self i news_list payload w in
    only_adds_images w (snd out)
    /\ (search_phrase self = None ->
        files (snd out) = files w /\ dirs (snd out) = dirs w
        /\ fst out = Ok payload).
Proof.
  induction news_list as [|e rest IH]; intros i payload w.
  - split; [apply only_adds_images_refl | done].
  - cbn zeta. rewrite process_loop_unfold. unfold try_except.
    pose proof (process_element_world self i e payload w) as [H1 Hnone].
    destruct (process_element self i e payload w) as [[[p c]| error |] w1] eqn:E;
      cbn [snd fst] in *.
    + destruct c.
      * destruct (IH (S i) p w1) as [H2 Hnone2]. split.
        -- by eapply only_adds_images_trans.
        -- intros Hp. destruct (Hnone Hp) as (Hf & Hd & Hpay).
           specialize (Hpay p Next eq_refl). subst p.
           destruct (Hnone2 Hp) as (Hf2 & Hd2 & Hout).
           split; [by rewrite Hf2|]. split; [by rewrite Hd2 | done].
      * split; [done|]. intros Hp. destruct (Hnone Hp) as (Hf & Hd & Hpay).
        split; [done|]. split; [done|]. cbn. f_equal. by eapply Hpay.
    + unfold bind, logging, ret. cbn [fst snd].
      set (w2 := {| log := log w1 ++ [(WARNING, ElementError error)];
                    dirs := dirs w1; files := files w1; workbook := workbook w1;
                    http := http w1; sessions := sessions w1 |}).
      assert (H12 : only_adds_images w1 w2) by apply (only_adds_images_logging WARNING).
      destruct (IH (S i) payload w2) as [H2 Hnone2]. split.
      * eapply only_adds_images_trans; [done|]. by eapply only_adds_images_trans.
      * intros Hp. destruct (Hnone Hp) as (Hf & Hd & _).
        destruct (Hnone2 Hp) as (Hf2 & Hd2 & Hout).
        split; [by rewrite Hf2|]. split; [by rewrite Hd2 | done].
    + split; [done|]. intros Hp. exfalso.
      destruct (process_step_spec self i e payload w) as (w' & Hstep & _).
      unfold try_except in Hstep. by rewrite E in Hstep.
Qed.

(** X4.  Extraction only adds: afterwards the log is the old log with
    entries appended, no directory is gone, every file outside
    output/imgs/img_... is as before, and the workbook, the HTTP answers
    and the browser sessions are untouched. *)
Theorem extraction_only_adds_images (self : MainScrapper)
    (news_list : list WebElement) (w : World) :
  only_adds_images w (snd (process_news_payload self news_list w)).
Proof. apply (process_loop_world self news_list 0 [] w). Qed.

(** X5.  Without a search phrase ([search_phrase] is [None], the default)
    extraction gives no record at all, and fetches no image: files and
    directories are exactly as before. *)
Theorem no_phrase_no_records (self : MainScrapper) (news_list : list WebElement)
    (w : World) (Hnone : search_phrase self = None) :
  fst (process_news_payload self news_list w) = Ok []
  /\ files (snd (process_news_payload self news_list w)) = files w
  /\ dirs (snd (process_news_payload self news_list w)) = dirs w.
Proof.
  destruct (process_loop_world self news_list 0 [] w) as [_ H].
  destruct (H Hnone) as (Hf & Hd & Hout). by repeat split.
Qed.

Lemma no_phrase_no_records_witness :
  search_phrase unnamed_scrapper = None
  /\ fst (process_news_payload unnamed_scrapper [gaza_article; plain_article]
            (sample_world (answers 200))) = Ok []
  /\ files (snd (process_news_payload unnamed_scrapper [gaza_article; plain_article]
                   (sample_world (answers 200))))
     = files (sample_world (answers 200)).
Proof.
  split; [reflexivity|].
  destruct (no_phrase_no_records unnamed_scrapper [gaza_article; plain_article]
              (sample_world (answers 200)) eq_refl) as (H1 & H2 & _).
  split; [exact H1 | exact H2].
Defined.

Lemma image_name_inj (i j : nat) :
  lit "img_" ++ decimal i ++ lit ".png" = lit "img_" ++ decimal j ++ lit ".png" ->
  i = j.
Proof.
  intros H. apply app_inv_head, app_inv_tail in H. by apply decimal_inj.
Qed.

Lemma get_news_image_name (self : MainScrapper) (src : option text) (idx : nat)
    (w w' : World) (name : text) :
  get_news_image self src idx w = (Ok name, w') ->
  name = lit "img_" ++ decimal idx ++ lit ".png" \/ name = lit "Unavailable".
Proof.
  intros H. destruct (src ≫= http w) as [resp|] eqn:Hresp.
  - destruct src as [url|]; [|done]. cbn in Hresp.
    destruct (get_news_image_answered self url idx w resp Hresp) as (w2 & H2 & _).
    rewrite H2 in H. injection H as <- _.
    destruct (status_code resp =? 200); eauto.
  - destruct (get_news_image_unanswered self src idx w Hresp) as (w2 & H2 & _).
    by rewrite H2 in H.
Qed.

(** X6.  Image files are named after the position of the handle, and
    positions never share a name: two fetches that return the same file
    name (not the "Unavailable" mark) were made for the same index, so an
    image is never stored over the image of another handle. *)
Theorem image_names_are_distinct (self1 self2 : MainScrapper)
    (src1 src2 : option text) (i j : nat) (w1 w2 w1' w2' : World) (name : text)
    (H1 : get_news_image self1 src1 i w1 = (Ok name, w1'))
    (H2 : get_news_image self2 src2 j w2 = (Ok name, w2'))
    (Hname : name <> lit "Unavailable") :
  i = j.
Proof.
  apply get_news_image_name in H1 as [H1|H1]; [|done].
  apply get_news_image_name in H2 as [H2|H2]; [|done].
  apply image_name_inj. congruence.
Qed.

Lemma image_names_are_distinct_witness :
  get_news_image (sample_scrapper 1) (Some (lit "https://example.org/a.jpg")) 7
    (sample_world (answers 200))
  = (Ok (lit "img_7.png"),
     snd (get_news_image (sample_scrapper 1) (Some (lit "https://example.org/a.jpg")) 7
            (sample_world (answers 200))))
  /\ lit "img_7.png" <> lit "Unavailable"
  /\ 7%nat = 7%nat.
Proof.
  assert (H : get_news_image (sample_scrapper 1)
                (Some (lit "https://example.org/a.jpg")) 7 (sample_world (answers 200))
              = (Ok (lit "img_7.png"),
                 snd (get_news_image (sample_scrapper 1)
                        (Some (lit "https://example.org/a.jpg")) 7
                        (sample_world (answers 200)))))
    by (vm_compute; reflexivity).
  assert (Hn : lit "img_7.png" <> lit "Unavailable") by (intros [=]).
  split; [exact H|]. split; [exact Hn|].
  exact (image_names_are_distinct _ _ _ _ _ _ _ _ _ _ _ H H Hn).
Defined.

(** X7.  Whatever the outcome of an image fetch (stored, "Unavailable",
    or an exception of the request), afterwards the image directory
    exists, no file other than output/imgs/img_<index>.png has changed, and
    unless img_<index>.png is returned no file has changed at all; the
    workbook, the sessions and the HTTP answers are untouched and the log
    has only grown. *)
Theorem image_fetch_touches_one_file (self : MainScrapper) (src : option text)
    (idx : nat) (w : World) :
  only_adds_images w (snd (get_news_image self src idx w))
  /\ img_directory self ∈ dirs (snd (get_news_image self src idx w))
  /\ (forall p,
        p <> lit "output/imgs/" ++ lit "img_" ++ decimal idx ++ lit ".png" ->
        files (snd (get_news_image self src idx w)) !! p = files w !! p)
  /\ (fst (get_news_image self src idx w)
      <> Ok (lit "img_" ++ decimal idx ++ lit ".png") ->
      files (snd (get_news_image self src idx w)) = files w).
Proof. apply get_news_image_world. Qed.

(** ** Records *)

Lemma build_record_date (self : MainScrapper) (get : text -> option response)
    (i : nat) (element : WebElement) (r : dict) :
  build_record self get i element = Some r ->
  exists d,
    parsed_month element = Some (month d)
    /\ make_date (year d) (month d) (day d) = Some d
    /\ dict_get (lit "date") r = Some (VStr (strftime d)).
Proof.
  unfold build_record, parsed_month. intros H.
  destruct (el_title element) as [title|]; [|done]. cbn in H.
  destruct (el_description element) as [rendered|]; [|done]. cbn in H.
  destruct (el_footer element) as [footer|]; [|done]. cbn in H.
  destruct (footer_date footer) as [date|] eqn:Hdate; [|done]. cbn in H.
  destruct (search_phrase self) as [phrase|]; [|done]. cbn in H.
  destruct (el_image element) as [[url|]|]; [|done|done]. cbn in H.
  destruct (get url) as [resp|]; [|done]. cbn in H.
  injection H as <-. exists date. cbn. rewrite Hdate. split; [done|]. split; [|done].
  unfold footer_date in Hdate. destruct (str_strip footer); [done|].
  destruct (search _ footer) as [m|]; [|done]. by apply strptime_make_date in Hdate.
Qed.

Lemma records_from_recent (P : dict -> Prop) (self : MainScrapper)
    (get : text -> option response) (handles : list WebElement) :
  Forall (fun e => too_old self e = false) handles ->
  (forall i e r, too_old self e = false -> build_record self get i e = Some r -> P r) ->
  forall i, Forall P (records_from self get i handles).
Proof.
  intros Hall HP. induction Hall as [|e rest He _ IH]; intros i; cbn [records_from].
  - constructor.
  - apply Forall_app. split; [|apply IH].
    destruct (build_record self get i e) eqn:E; cbn; [|constructor].
    repeat constructor. by eapply HP.
Qed.

(** X8.  Every record of the payload carries a real calendar date whose
    month is not below the month limit, written as '%d %b %Y'; for years
    of four digits the written text parses back to that date. *)
Theorem record_dates_are_recent_and_parse_back (self : MainScrapper)
    (news_list : list WebElement) (w : World) :
  exists payload,
    fst (process_news_payload self news_list w) = Ok payload
    /\ Forall (fun r =>
                 exists d,
                   dict_get (lit "date") r = Some (VStr (strftime d))
                   /\ make_date (year d) (month d) (day d) = Some d
                   /\ month_limit self <= month d
                   /\ (1000 <= year d -> strptime (strftime d) = Some d))
              payload.
Proof.
  destruct (first_too_old self news_list) as (pre & post & -> & Hpre & Hpost).
  unfold process_news_payload.
  destruct (process_loop_spec self pre post Hpre Hpost 0%nat [] w) as (w' & -> & _).
  eexists. split; [done|]. cbn [app].
  apply records_from_recent; [done|]. intros i e r Hold Hr.
  apply build_record_date in Hr as (d & Hm & Hd & Hdate).
  exists d. split; [done|]. split; [done|]. split.
  - unfold too_old in Hold. rewrite Hm in Hold. lia.
  - intros Hy. by apply strptime_strftime.
Qed.

Lemma records_from_length (self : MainScrapper) (get : text -> option response)
    (handles : list WebElement) :
  forall i, (length (records_from self get i handles) <= length handles)%nat.
Proof.
  induction handles as [|e rest IH]; intros i; cbn [records_from length]; [done|].
  rewrite length_app. specialize (IH (S i)).
  destruct (build_record self get i e); cbn; lia.
Qed.

(** X9.  The payload has at most one record per handle, and every record
    has exactly the six fields title, date, description,
    search_term_occurrence, contains_money and img_file_name, in this
    order. *)
Theorem payload_shape (self : MainScrapper) (news_list : list WebElement)
    (w : World) :
  exists payload,
    fst (process_news_payload self news_list w) = Ok payload
    /\ (length payload <= length news_list)%nat
    /\ Forall (fun r => map fst r = article_fields) payload.
Proof.
  destruct (first_too_old self news_list) as (pre & post & -> & Hpre & Hpost).
  unfold process_news_payload.
  destruct (process_loop_spec self pre post Hpre Hpost 0%nat [] w) as (w' & -> & _).
  eexists. split; [done|]. cbn [app]. split.
  - pose proof (records_from_length self (http w) pre 0). rewrite length_app. lia.
  - apply records_from_Forall. intros i e r Hr.
    by apply build_record_fields in Hr as (? & ? & ? & ? & ? & _ & _ & _ & _ & _ & Hk & _).
Qed.

(** ** The report *)

Lemma save_payload_nonempty (first : dict) (rest : list dict) (w : World) :
  save_payload_to_excel (first :: rest) w
  = (Ok tt,
     snd (save_workbook
            (write_rows (first :: rest)
               (write_header (map fst first) (default ∅ (workbook w)))) w)).
Proof.
  unfold save_payload_to_excel, bind, workbook_exists.
  destruct (workbook w) as [old|] eqn:E; cbn [negb bool_decide];
    [rewrite bool_decide_eq_true_2 by eauto
    |rewrite bool_decide_eq_false_2 by (by intros [? ?])];
    cbn [negb]; unfold create_workbook, open_workbook, ret;
    rewrite ?E, index_zero; reflexivity.
Qed.

Lemma saved_cells (payload : list dict) (keys : list text)
    (old : gmap (nat * nat) value) (r c : nat) :
  write_rows payload (write_header keys old) !! (r, c)
  = match (if bool_decide (2 <= r)%nat then payload !! (r - 2)%nat else None) with
    | Some d =>
        if bool_decide (1 <= c < 1 + length d)%nat
        then snd <$> d !! (c - 1)%nat
        else old !! (r, c)
    | None =>
        if bool_decide (r = 1%nat /\ (1 <= c < 1 + length keys)%nat)
        then VStr <$> keys !! (c - 1)%nat
        else old !! (r, c)
    end.
Proof.
  rewrite write_rows_lookup.
  destruct (bool_decide_reflect (2 <= r)%nat) as [Hr|Hr].
  - destruct (payload !! (r - 2)%nat) as [d|].
    + destruct (bool_decide (1 <= c < 1 + length d)%nat); [done|].
      rewrite write_header_lookup, bool_decide_eq_false_2; [done | lia].
    + by rewrite write_header_lookup.
  - by rewrite write_header_lookup.
Qed.

Lemma empty_payload_helper (w : World) :
  save_payload_to_excel [] w = (Raise IndexError, w).
Proof.
  unfold save_payload_to_excel, bind, workbook_exists.
  by destruct (bool_decide (is_Some (workbook w))).
Qed.

(** X10.  Writing never clears the sheet: a cell below the last data
    row keeps what the existing workbook had there, so a run with fewer
    records leaves the old rows of a longer run in place; in a new
    workbook those cells are empty. *)
Theorem rows_below_the_payload_are_kept (payload : list dict) (w : World)
    (r c : nat)
    (Hne : payload <> [])
    (Hbelow : (length payload + 1 < r)%nat) :
  exists wb,
    workbook (snd (save_payload_to_excel payload w)) = Some wb
    /\ wb !! (r, c) = default ∅ (workbook w) !! (r, c).
Proof.
  destruct payload as [|first rest]; [done|].
  rewrite save_payload_nonempty. eexists. split; [done|].
  rewrite saved_cells. rewrite bool_decide_eq_true_2 by lia.
  rewrite (proj2 (lookup_ge_None (first :: rest) (r - 2)%nat)) by (cbn in *; lia).
  rewrite bool_decide_eq_false_2; [done|]. cbn in Hbelow. lia.
Qed.

Lemma saved_twice (payload : list dict) (keys : list text)
    (old : gmap (nat * nat) value) :
  write_rows payload (write_header keys (write_rows payload (write_header keys old)))
  = write_rows payload (write_header keys old).
Proof.
  apply map_eq. intros [r c]. rewrite (saved_cells payload keys (write_rows _ _)).
  rewrite !saved_cells.
  destruct (if bool_decide (2 <= r)%nat then payload !! (r - 2)%nat else None) as [d|].
  - by destruct (bool_decide (1 <= c < 1 + length d)%nat).
  - by destruct (bool_decide (r = 1%nat /\ (1 <= c < 1 + length keys)%nat)).
Qed.

(** X11.  Writing the same payload a second time changes nothing: the
    second run ends in the same world as the first. *)
Theorem writing_twice_is_writing_once (payload : list dict) (w w1 : World)
    (Hfirst : save_payload_to_excel payload w = (Ok tt, w1)) :
  save_payload_to_excel payload w1 = (Ok tt, w1).
Proof.
  destruct payload as [|first rest].
  { by rewrite empty_payload_helper in Hfirst. }
  rewrite save_payload_nonempty in Hfirst. injection Hfirst as <-.
  rewrite save_payload_nonempty. unfold save_workbook.
  cbn -[write_rows write_header]. by rewrite saved_twice.
Qed.

Lemma writing_twice_is_writing_once_witness :
  let payload := [[(lit "title", VStr (lit "a")); (lit "n", VInt 1)]] in
  let w1 := snd (save_payload_to_excel payload (sample_world (answers 200))) in
  save_payload_to_excel payload (sample_world (answers 200)) = (Ok tt, w1)
  /\ save_payload_to_excel payload w1 = (Ok tt, w1).
Proof.
  intros payload w1.
  assert (H : save_payload_to_excel payload (sample_world (answers 200)) = (Ok tt, w1))
    by reflexivity.
  split; [exact H|]. exact (writing_twice_is_writing_once payload _ w1 H).
Defined.

Lemma rows_below_the_payload_are_kept_witness :
  let payload := [[(lit "title", VStr (lit "a"))]] in
  let w := snd (save_payload_to_excel
                  [[(lit "title", VStr (lit "a"))]; [(lit "title", VStr (lit "b"))]]
                  (sample_world (answers 200))) in
  payload <> []
  /\ (length payload + 1 < 3)%nat
  /\ exists wb,
       workbook (snd (save_payload_to_excel payload w)) = Some wb
       /\ wb !! (3%nat, 1%nat) = Some (VStr (lit "b")).
Proof.
  intros payload w.
  assert (H1 : payload <> []) by done.
  assert (H2 : (length payload + 1 < 3)%nat) by (cbn; lia).
  split; [exact H1|]. split; [exact H2|].
  destruct (rows_below_the_payload_are_kept payload w 3 1 H1 H2) as (wb & Hwb & Hcell).
  exists wb. split; [exact Hwb|]. rewrite Hcell. vm_compute. reflexivity.
Defined.

Lemma extraction_result (self : MainScrapper) (news_list : list WebElement)
    (w : World) :
  exists pre post w',
    news_list = pre ++ post
    /\ Forall (fun e => too_old self e = false) pre
    /\ process_news_payload self news_list w
       = (Ok (records_from self (http w) 0 pre), w').
Proof.
  destruct (first_too_old self news_list) as (pre & post & -> & Hpre & Hpost).
  unfold process_news_payload.
  destruct (process_loop_spec self pre post Hpre Hpost 0%nat [] w) as (w' & Hrun & _).
  by exists pre, post, w'.
Qed.

(** X12.  Extraction feeds the report writer: an empty payload makes the
    writer fail with [IndexError] and nothing is saved; otherwise the
    writer succeeds, row 1 holds the six field names and row [r + 2] holds
    the values of record [r], each under its field name. *)
Theorem extraction_feeds_report (self : MainScrapper)
    (news_list : list WebElement) (w : World) :
  exists payload w1,
    process_news_payload self news_list w = (Ok payload, w1)
    /\ match payload with
       | [] => save_payload_to_excel payload w1 = (Raise IndexError, w1)
       | _ :: _ =>
           exists wb w2,
             save_payload_to_excel payload w1 = (Ok tt, w2)
             /\ workbook w2 = Some wb
             /\ (forall c key,
                   article_fields !! c = Some key ->
                   wb !! (1%nat, S c) = Some (VStr key))
             /\ (forall r d c key v,
                   payload !! r = Some d ->
                   d !! c = Some (key, v) ->
                   wb !! ((r + 2)%nat, S c) = Some v
                   /\ article_fields !! c = Some key)
       end.
Proof.
  destruct (extraction_result self news_list w) as (pre & post & w1 & _ & _ & Hrun).
  exists (records_from self (http w) 0 pre), w1. split; [done|].
  assert (Hfields : Forall (fun r => map fst r = article_fields)
                      (records_from self (http w) 0 pre)).
  { apply records_from_Forall. intros i e r Hr.
    by apply build_record_fields in Hr as (? & ? & ? & ? & ? & _ & _ & _ & _ & _ & Hk & _). }
  destruct (records_from self (http w) 0 pre) as [|first rest] eqn:E;
    [apply empty_payload_helper|].
  rewrite save_payload_nonempty. eexists _, _. split; [done|]. split; [done|].
  assert (Hfirst : map fst first = article_fields) by (by apply Forall_cons in Hfields as [? _]).
  rewrite Hfirst. split.
  - intros c key Hkey. rewrite saved_cells.
    rewrite (bool_decide_eq_false_2 (2 <= 1)%nat) by lia.
    pose proof (lookup_lt_Some _ _ _ Hkey) as Hlt.
    rewrite bool_decide_eq_true_2 by lia.
    replace (S c - 1)%nat with c by lia. by rewrite Hkey.
  - intros r d c key v Hd Hc. split.
    + rewrite saved_cells. rewrite bool_decide_eq_true_2 by lia.
      replace (r + 2 - 2)%nat with r by lia. rewrite Hd.
      pose proof (lookup_lt_Some _ _ _ Hc) as Hlt.
      rewrite bool_decide_eq_true_2 by lia.
      replace (S c - 1)%nat with c by lia. by rewrite Hc.
    + pose proof (proj1 (Forall_forall _ _) Hfields d (list_elem_of_lookup_2 _ _ _ Hd)) as Hk.
      cbn beta in Hk. by rewrite <- Hk, list_lookup_fmap, Hc.
Qed.

(** ** Navigation *)


Lemma load_more_ends_without_button `{Browser} (n : nat) :
  forall (w w' : World),
    load_more n w = (Ok tt, w') ->
    exists w0, does_page_contain_element LOAD_MODE_BUTTON w0 = (Ok false, w').
Proof.
  induction n as [|n IH]; intros w w' Hrun; [done|].
  cbn [load_more] in Hrun. unfold bind in Hrun.
  destruct (does_page_contain_element LOAD_MODE_BUTTON w) as [[[|]| e |] w1] eqn:E;
    try done.
  - destruct (execute_javascript _ w1) as [[[]| e |] w2]; try done.
    destruct (click_element LOAD_MODE_BUTTON w2) as [[[]| e |] w3]; try done.
    by eapply IH.
  - injection Hrun as <-. by exists w.
Qed.





(** X14.  The result list is collected only when the "load more" button
    is gone: if [get_news_list_by_date] returns a list, the list is what
    [find_elements] gave in the world right after a check that found no
    button. *)
Theorem results_are_collected_after_last_page `{Browser} (fuel : nat)
    (w w' : World) (news_list : list WebElement)
    (Hlist : get_news_list_by_date fuel w = (Ok news_list, w')) :
  exists w0 w1,
    does_page_contain_element LOAD_MODE_BUTTON w0 = (Ok false, w1)
    /\ find_elements MAIN_CONTENT w1 = (Ok news_list, w').
Proof.
  unfold get_news_list_by_date, bind in Hlist.
  destruct (select_from_list_by_value _ _ w) as [[[]| e |] w1]; try done.
  destruct (wait_until_located _ _ w1) as [[[]| e |] w2]; try done.
  destruct (load_more fuel w2) as [[[]| e |] w3] eqn:El; try done.
  apply load_more_ends_without_button in El as (w0 & Hw0).
  by exists w0, w3.
Qed.

(** X15.  A search that yields no record makes the whole run fail: when
    the steps up to extraction succeed and extraction returns an empty
    payload, [scrape] raises the generic exception that wraps the writer's
    [IndexError], with the sessions closed and the workbook as it was. *)
Theorem scrape_fails_without_records `{Browser} (self : MainScrapper) (fuel : nat)
    (w w1 w2 w3 : World) (news_list : list WebElement)
    (Hsearch : search_news self w = (Ok tt, w1))
    (Hwait : wait_until_located (ById "search-sort-option") 2 w1 = (Ok tt, w2))
    (Hlist : get_news_list_by_date fuel w2 = (Ok news_list, w3))
    (Hnone : fst (process_news_payload self news_list w3) = Ok []) :
  exists w',
    scrape self fuel w = (Raise (PlainException IndexError), w')
    /\ sessions w' = 0%nat
    /\ workbook w' = workbook w3.
Proof.
  pose proof (process_loop_world self news_list 0 [] w3) as [Hadds _].
  fold (process_news_payload self news_list w3) in Hadds.
  destruct (process_news_payload self news_list w3) as [r w4] eqn:Hrun.
  cbn [fst snd] in *. subst r.
  destruct Hadds as (_ & _ & _ & Hwb & _).
  unfold scrape, try_finally, try_except, scrape_body, bind.
  rewrite Hsearch, Hwait, Hlist, Hrun, empty_payload_helper. cbn.
  eexists. split; [done|]. by split.
Qed.

Lemma scrape_fails_without_records_witness :
  let w := sample_world (answers 200) in
  @search_news (result_page [january_article]) (sample_scrapper 3) w = (Ok tt, w)
  /\ @wait_until_located (result_page [january_article]) (ById "search-sort-option") 2 w
     = (Ok tt, w)
  /\ @get_news_list_by_date (result_page [january_article]) 2 w
     = (Ok [january_article], w)
  /\ fst (process_news_payload (sample_scrapper 3) [january_article] w) = Ok []
  /\ exists w',
       @scrape (result_page [january_article]) (sample_scrapper 3) 2 w
       = (Raise (PlainException IndexError), w')
       /\ sessions w' = 0%nat.
Proof.
  intros w.
  assert (H1 : @search_news (result_page [january_article]) (sample_scrapper 3) w
               = (Ok tt, w)) by reflexivity.
  assert (H2 : @wait_until_located (result_page [january_article])
                 (ById "search-sort-option") 2 w = (Ok tt, w)) by reflexivity.
  assert (H3 : @get_news_list_by_date (result_page [january_article]) 2 w
               = (Ok [january_article], w)) by reflexivity.
  assert (H4 : fst (process_news_payload (sample_scrapper 3) [january_article] w) = Ok [])
    by (vm_compute; reflexivity).
  split; [exact H1|]. split; [exact H2|]. split; [exact H3|]. split; [exact H4|].
  destruct (@scrape_fails_without_records (result_page [january_article])
              (sample_scrapper 3) 2 w w w w [january_article] H1 H2 H3 H4)
    as (w' & Hs & Hc & _).
  exists w'. split; [exact Hs | exact Hc].
Defined.

(** X16.  Date parsing never raises and touches nothing but the log.  A
    date it returns is a real calendar date and comes with the world
    unchanged; a warning is logged only together with the answer [None];
    a blank footer gives [None] without a warning. *)
Theorem date_parsing_effects (footer : text) (w : World) :
  exists r w',
    convert_string_to_datetime footer w = (Ok r, w')
    /\ (forall d, r = Some d ->
          w' = w /\ make_date (year d) (month d) (day d) = Some d)
    /\ (w' = w
        \/ (r = None /\ w' = snd (logging WARNING DateParseError w)))
    /\ (str_strip footer = [] -> r = None /\ w' = w).
Proof.
  unfold convert_string_to_datetime.
  destruct (str_strip footer) as [|c s] eqn:Hs.
  { exists None, w. split; [done|]. split; [done|]. split; [by left | done]. }
  unfold date_patterns. cbn [convert_loop]. unfold bind.
  destruct (search _ footer) as [m|].
  - destruct (strptime (group1 footer m)) as [d|] eqn:Hd; cbn.
    + exists (Some d), w. split; [done|]. split; [|split; [by left | done]].
      intros d' [= <-]. split; [done|]. by apply strptime_make_date in Hd.
    + eexists None, _. split; [done|]. split; [done|]. split; [by right | done].
  - exists None, w. split; [done|]. split; [done|]. split; [by left | done].
Qed.

(** ** Images on disk *)

Lemma image_path_inj (i j : nat) :
  lit "output/imgs/" ++ lit "img_" ++ decimal i ++ lit ".png"
  = lit "output/imgs/" ++ lit "img_" ++ decimal j ++ lit ".png" ->
  i = j.
Proof. intros H. apply app_inv_head in H. by apply image_name_inj. Qed.

Lemma step_keeps_other_images (self : MainScrapper) (i : nat) (element : WebElement)
    (payload : list dict) (w : World) (p : text) :
  p <> lit "output/imgs/" ++ lit "img_" ++ decimal i ++ lit ".png" ->
  files (snd (process_element self i element payload w)) !! p = files w !! p.
Proof.
  intros Hp.
  destruct (process_element_cases self i element payload w)
    as (w1 & Hor & [[e ->]|[[c ->]|[_ [src ->]]]]); cbn [snd].
  - by destruct Hor as [->| ->].
  - by destruct Hor as [->| ->].
  - destruct (get_news_image_world self src i w1) as (_ & _ & Hother & _).
    rewrite Hother by done. by destruct Hor as [->| ->].
Qed.

Lemma loop_keeps_earlier_images (self : MainScrapper) (news_list : list WebElement) :
  forall (i : nat) (payload : list dict) (w : World) (j : nat),
    (j < i)%nat ->
    files (snd (process_loop self i news_list payload w))
      !! (lit "output/imgs/" ++ lit "img_" ++ decimal j ++ lit ".png")
    = files w !! (lit "output/imgs/" ++ lit "img_" ++ decimal j ++ lit ".png").
Proof.
  induction news_list as [|e rest IH]; intros i payload w j Hj; [done|].
  rewrite process_loop_unfold. unfold try_except.
  pose proof (step_keeps_other_images self i e payload w
                (lit "output/imgs/" ++ lit "img_" ++ decimal j ++ lit ".png")) as Hstep.
  destruct (process_element self i e payload w) as [[[p c]| error |] w1];
    cbn [snd] in Hstep.
  - destruct c; [|cbn [snd]; apply Hstep; intros E; apply image_path_inj in E; lia].
    rewrite IH by lia. apply Hstep. intros E. apply image_path_inj in E. lia.
  - unfold bind, logging, ret. rewrite IH by lia. cbn [files].
    apply Hstep. intros E. apply image_path_inj in E. lia.
  - cbn [snd]. apply Hstep. intros E. apply image_path_inj in E. lia.
Qed.

Lemma process_element_stores (self : MainScrapper) (i : nat) (element : WebElement)
    (payload : list dict) (w : World) (r : dict) (url : text) (resp : response) :
  too_old self element = false ->
  build_record self (http w) i element = Some r ->
  el_image element = Some (Some url) ->
  http w url = Some resp ->
  status_code resp = 200 ->
  exists w',
    process_element self i element payload w = (Ok (payload ++ [r], Next), w')
    /\ http w' = http w
    /\ files w' !! (lit "output/imgs/" ++ lit "img_" ++ decimal i ++ lit ".png")
       = Some (content resp).
Proof.
  intros Hold Hr Himg Hresp Hstatus.
  unfold too_old, parsed_month in Hold. unfold build_record in Hr.
  unfold process_element.
  destruct (el_title element) as [title|]; [|done].
  destruct (el_description element) as [rendered|]; [|done].
  destruct (el_footer element) as [footer|]; [|done].
  cbn in Hold, Hr. cbn [found bind ret raise].
  rewrite (bind_ok _ _ _ _ _ (index_last_but_one _ _ _)). fold (summary rendered).
  cbn [found bind ret raise].
  destruct (convert_string_to_datetime_spec footer w) as (w1 & Hconv & Hw1 & _).
  rewrite (bind_ok _ _ _ _ _ Hconv).
  destruct (footer_date footer) as [date|]; [|done]. cbn in Hold, Hr.
  rewrite (Z.leb_antisym (month date)), Hold. cbn [negb].
  destruct (search_phrase self) as [phrase|]; [|done]. cbn in Hr.
  cbn [count_in bind ret raise]. rewrite Himg in Hr |- *. cbn in Hr.
  cbn [found bind ret raise]. rewrite Hresp in Hr. cbn in Hr.
  rewrite <- Hw1 in Hresp.
  destruct (get_news_image_answered self url i w1 resp Hresp) as (w2 & Hget & Hw2 & Hfile).
  rewrite (bind_ok _ _ _ _ _ Hget). rewrite Hstatus in Hr, Hfile |- *.
  change (200 =? 200) with true in *. cbv iota in *.
  exists w2. injection Hr as <-. split; [done|]. split; [congruence | apply Hfile].
Qed.

Lemma loop_stores_image (self : MainScrapper) (news_list : list WebElement) :
  forall (i : nat) (payload : list dict) (w : World) (k : nat) (e : WebElement)
         (r : dict) (url : text) (resp : response),
    news_list !! k = Some e ->
    Forall (fun x => too_old self x = false) (take (S k) news_list) ->
    build_record self (http w) (i + k) e = Some r ->
    el_image e = Some (Some url) ->
    http w url = Some resp ->
    status_code resp = 200 ->
    files (snd (process_loop self i news_list payload w))
      !! (lit "output/imgs/" ++ lit "img_" ++ decimal (i + k) ++ lit ".png")
    = Some (content resp).
Proof.
  induction news_list as [|e0 rest IH];
    intros i payload w k e r url resp Hk Hrecent Hr Himg Hresp Hstatus; [done|].
  cbn [take] in Hrecent. apply Forall_cons in Hrecent as [He0 Hrecent].
  rewrite process_loop_unfold. destruct k as [|k].
  - injection Hk as ->. rewrite Nat.add_0_r in *.
    destruct (process_element_stores self i e payload w r url resp
                He0 Hr Himg Hresp Hstatus) as (w' & Hrun & _ & Hfile).
    unfold try_except. rewrite Hrun.
    by rewrite loop_keeps_earlier_images by lia.
  - destruct (process_step_spec self i e0 payload w) as (w1 & -> & Hw1).
    rewrite He0. replace (i + S k)%nat with (S i + k)%nat in * by lia.
    apply (IH (S i) _ w1 k e r url resp); try done; by rewrite Hw1.
Qed.

(** X17.  Every image file a record names is on disk after extraction,
    with the bytes of its response: for a handle that no too-old handle
    precedes, whose record names a file other than "Unavailable", the
    file output/imgs/<name> holds the content of the response of its URL. *)
Theorem named_images_are_on_disk (self : MainScrapper)
    (news_list : list WebElement) (w : World) (k : nat) (e : WebElement)
    (r : dict) (name : text)
    (Hk : news_list !! k = Some e)
    (Hrecent : Forall (fun x => too_old self x = false) (take (S k) news_list))
    (Hr : build_record self (http w) k e = Some r)
    (Hname : dict_get (lit "img_file_name") r = Some (VStr name))
    (Hstored : name <> lit "Unavailable") :
  exists url resp,
    el_image e = Some (Some url)
    /\ http w url = Some resp
    /\ files (snd (process_news_payload self news_list w)) !! (lit "output/imgs/" ++ name)
       = Some (content resp).
Proof.
  pose proof (build_record_fields _ _ _ _ _ Hr)
    as (? & ? & ? & url & resp & _ & _ & _ & Himg & Hresp & _ & _ & _ & _ & Hn).
  rewrite Hname in Hn. injection Hn as ->.
  destruct (status_code resp =? 200) eqn:Hs; [|done].
  apply Z.eqb_eq in Hs.
  exists url, resp. split; [done|]. split; [done|].
  unfold process_news_payload.
  by apply (loop_stores_image self news_list 0 [] w k e r url resp).
Qed.

Lemma named_images_are_on_disk_witness :
  let w := sample_world (answers 200) in
  let news_list := [untitled_article; gaza_article; january_article] in
  let r := default [] (build_record (sample_scrapper 1) (http w) 1 gaza_article) in
  news_list !! 1%nat = Some gaza_article
  /\ Forall (fun x => too_old (sample_scrapper 1) x = false) (take 2 news_list)
  /\ build_record (sample_scrapper 1) (http w) 1 gaza_article = Some r
  /\ dict_get (lit "img_file_name") r = Some (VStr (lit "img_1.png"))
  /\ lit "img_1.png" <> lit "Unavailable"
  /\ exists url resp,
       el_image gaza_article = Some (Some url)
       /\ http w url = Some resp
       /\ files (snd (process_news_payload (sample_scrapper 1) news_list w))
            !! (lit "output/imgs/" ++ lit "img_1.png")
          = Some (content resp).
Proof.
  intros w news_list r.
  assert (H1 : news_list !! 1%nat = Some gaza_article) by reflexivity.
  assert (H2 : Forall (fun x => too_old (sample_scrapper 1) x = false) (take 2 news_list))
    by (repeat constructor; vm_compute; reflexivity).
  assert (H3 : build_record (sample_scrapper 1) (http w) 1 gaza_article = Some r)
    by (vm_compute; reflexivity).
  assert (H4 : dict_get (lit "img_file_name") r = Some (VStr (lit "img_1.png")))
    by (vm_compute; reflexivity).
  assert (H5 : lit "img_1.png" <> lit "Unavailable") by (intros [=]).
  split; [exact H1|]. split; [exact H2|]. split; [exact H3|]. split; [exact H4|].
  split; [exact H5|].
  exact (named_images_are_on_disk (sample_scrapper 1) news_list w 1 gaza_article r
           (lit "img_1.png") H1 H2 H3 H4 H5).
Defined.

Lemma results_are_collected_after_last_page_witness :
  let w := sample_world (answers 200) in
  @get_news_list_by_date (result_page [gaza_article]) 3 w = (Ok [gaza_article], w)
  /\ exists w0 w1,
       @does_page_contain_element (result_page [gaza_article]) LOAD_MODE_BUTTON w0
       = (Ok false, w1)
       /\ @find_elements (result_page [gaza_article]) MAIN_CONTENT w1
          = (Ok [gaza_article], w).
Proof.
  intros w.
  assert (H : @get_news_list_by_date (result_page [gaza_article]) 3 w
              = (Ok [gaza_article], w)) by reflexivity.
  split; [exact H|].
  exact (@results_are_collected_after_last_page (result_page [gaza_article])
           3 w w [gaza_article] H).
Defined.

(** ** What the payload depends on *)

(** X18.  The payload depends on the handles and on the HTTP answers
    only: two runs on worlds with the same answers, whatever their logs,
    files, workbooks and sessions, return the same payload. *)
Theorem payload_depends_on_answers_only (self : MainScrapper)
    (news_list : list WebElement) (w1 w2 : World)
    (Hsame : http w1 = http w2) :
  fst (process_news_payload self news_list w1)
  = fst (process_news_payload self news_list w2).
Proof.
  destruct (first_too_old self news_list) as (pre & post & -> & Hpre & Hpost).
  unfold process_news_payload.
  destruct (process_loop_spec self pre post Hpre Hpost 0%nat [] w1) as (w1' & -> & _).
  destruct (process_loop_spec self pre post Hpre Hpost 0%nat [] w2) as (w2' & -> & _).
  cbn. by rewrite Hsame.
Qed.

Lemma payload_depends_on_answers_only_witness :
  let w1 := sample_world (answers 200) in
  let w2 := snd (process_news_payload (sample_scrapper 1) [plain_article] w1) in
  http w1 = http w2
  /\ fst (process_news_payload (sample_scrapper 1) [gaza_article; plain_article] w1)
     = fst (process_news_payload (sample_scrapper 1) [gaza_article; plain_article] w2).
Proof.
  intros w1 w2.
  assert (H : http w1 = http w2) by reflexivity.
  split; [exact H|].
  exact (payload_depends_on_answers_only (sample_scrapper 1)
           [gaza_article; plain_article] w1 w2 H).
Defined.

Lemma loop_stops_at_too_old (self : MainScrapper) (h : WebElement)
    (post post' : list WebElement) :
  too_old self h = true ->
  forall (pre : list WebElement) (i : nat) (payload : list dict) (w : World),
    process_loop self i (pre ++ h :: post) payload w
    = process_loop self i (pre ++ h :: post') payload w.
Proof.
  intros Hold. induction pre as [|e pre IH]; intros i payload w; cbn [app];
    rewrite !process_loop_unfold.
  - destruct (process_step_spec self i h payload w) as (w' & -> & _). by rewrite Hold.
  - destruct (process_step_spec self i e payload w) as (w' & -> & _).
    destruct (too_old self e); [done | apply IH].
Qed.

(** X19.  Nothing after a too-old handle is looked at: replacing the
    handles that follow it changes neither the payload nor the world
    extraction ends in (no log entry, no image request for them). *)
Theorem handles_after_too_old_are_ignored (self : MainScrapper)
    (pre post post' : list WebElement) (h : WebElement) (w : World)
    (Hold : too_old self h = true) :
  process_news_payload self (pre ++ h :: post) w
  = process_news_payload self (pre ++ h :: post') w.
Proof. unfold process_news_payload. by apply loop_stops_at_too_old. Qed.

Lemma handles_after_too_old_are_ignored_witness :
  too_old (sample_scrapper 3) january_article = true
  /\ process_news_payload (sample_scrapper 3)
       ([gaza_article] ++ january_article :: [plain_article; gaza_article])
       (sample_world (answers 200))
     = process_news_payload (sample_scrapper 3)
         ([gaza_article] ++ january_article :: [])
         (sample_world (answers 200)).
Proof.
  assert (H : too_old (sample_scrapper 3) january_article = true)
    by (vm_compute; reflexivity).
  split; [exact H|].
  exact (handles_after_too_old_are_ignored (sample_scrapper 3) [gaza_article]
           [plain_article; gaza_article] [] january_article
           (sample_world (answers 200)) H).
Defined.
